(** * Hardware-wallet plugin base: OP_RETURN output validation, wallet-close
      cleanup, the optional-library guard and the abstract plugin methods.

    Shallow embedding of [electroncash_plugins/hw_wallet/plugin.py].

    Python values are modelled as follows: [int] is [Z]; [bytes] is a list of
    [Byte.byte]; [str] is [string]; [None]-or-value is [option]; a raised
    exception is the [Raise] branch of [result]. *)

From Stdlib Require Import ZArith String Ascii Bool Lia List.
From Stdlib.Strings Require Import Byte.
From Stdlib Require Import Decimal DecimalString.
Import ListNotations.

Open Scope string_scope.
Open Scope list_scope.
Open Scope Z_scope.

(** ** Python exceptions and results *)

(** The exception classes that the module raises or lets through. *)
Inductive exn : Type :=
| AssertionError
| Exception (msg : string)
| RuntimeError (msg : string)
| NotImplementedError
| ScriptError (msg : string)
| ExternalError (msg : string).

(** The outcome of a call: a returned value or a raised exception. *)
Inductive result (A : Type) : Type :=
| Return (a : A)
| Raise (e : exn).

Arguments Return {A} a.
Arguments Raise {A} e.

Definition bind {A B : Type} (r : result A) (k : A -> result B) : result B :=
  match r with
  | Return a => k a
  | Raise e => Raise e
  end.

Notation "x <- c ;; k" := (bind c (fun x => k))
  (at level 61, c at next level, right associativity).

(** ** Strings: [str(int)], [str.format], and the i18n helpers *)

(** [str(n)] for a Python [int]: decimal digits, with a leading minus sign
    for a negative number. *)
Definition str (n : Z) : string := NilZero.string_of_int (Z.to_int n).

(** [template.format(value)] for a template with replacement fields
    ([{}] or [{name}]): every field is replaced by [value].  The templates of
    this module hold one field each and no escaped braces. *)
Fixpoint format_from (in_field : bool) (template value : string) : string :=
  match template with
  | EmptyString => EmptyString
  | String c rest =>
      if in_field then
        if Ascii.eqb c "}" then format_from false rest value
        else format_from true rest value
      else if Ascii.eqb c "{" then (value ++ format_from true rest value)%string
      else String c (format_from false rest value)
  end.

Definition format (template value : string) : string :=
  format_from false template value.

(** Modelled from the spec: [electroncash.i18n] is not part of this module
    and localisation is outside the described core.  [_] is taken on the
    untranslated catalogue, where it returns its argument. *)
Definition gettext (msg : string) : string := msg.

(** Modelled from the spec: [electroncash.i18n.ngettext] on the untranslated
    catalogue, where "the message pluralizes on whether [max_pushes == 1]":
    the singular for [n = 1], the plural otherwise. *)
Definition ngettext (singular plural : string) (n : Z) : string :=
  if n =? 1 then singular else plural.

(** ** Scripts, operations and outputs *)

Definition bytes : Type := list byte.

(** [len(x)] as a Python [int]. *)
Definition len {A : Type} (l : list A) : Z := Z.of_nat (length l).

(** [x[i:]] for a non-negative constant [i]. *)
Definition slice_from {A : Type} (i : nat) (l : list A) : list A := skipn i l.

(** One parsed operation, as the validator indexes it: [op[0]] is the opcode
    and [op[1]] is the pushed data, or [None] when the operation pushes
    nothing. *)
Definition op : Type := (Z * option bytes)%type.

(** The [address] member of a script output: the only attribute read is
    [script]. *)
Record ScriptOutput : Type := { script : bytes }.

(** [tuple(typ, address, amount)]. *)
Definition output : Type := (Z * ScriptOutput * Z)%type.

(** What the validator imports from [electroncash.bitcoin] and
    [electroncash.address], none of which belongs to this module: the
    output-kind constant, the marker opcode and the script parser (which may
    raise).  The validator is defined and verified for any such imports; the
    instance [electroncash] below fixes them for concrete runs. *)
Class Imports : Type := {
  TYPE_SCRIPT : Z;
  OP_RETURN : Z;
  get_ops : bytes -> result (list op)
}.

(** Whether an operation carries pushed data: [op[1] is not None]. *)
Definition has_data (o : op) : bool :=
  match snd o with
  | None => false
  | Some _ => true
  end.

(** ** The OP_RETURN validator *)

(** Lines 152-156: [None] for [max_pushes] is replaced by [max_size]. *)
Definition effective_max_pushes (max_size : Z) (max_pushes : option Z) : Z :=
  match max_pushes with
  | None => max_size
  | Some m => m
  end.

(** [ops[0][0] != OpCodes.OP_RETURN]; evaluated only when [len(ops) >= 1]. *)
Definition first_opcode_differs `{Imports} (ops : list op) : bool :=
  match nth_error ops 0 with
  | Some o => negb (fst o =? OP_RETURN)
  | None => true
  end.

(** [any(ops[i+1][1] is None for i in range(num_pushes))]; evaluated only
    when [1 <= num_pushes = len(ops) - 1], so every index is in range. *)
Definition any_push_without_data (ops : list op) (num_pushes : Z) : bool :=
  existsb
    (fun i => match nth_error ops (S i) with
              | Some o => match snd o with None => true | Some _ => false end
              | None => false
              end)
    (seq 0 (Z.to_nat num_pushes)).

Definition default_max_size : Z := 220.
Definition default_max_pushes : option Z := Some 1.

Definition validate_op_return_output_and_get_data `{Imports}
    (output : output) (max_size : Z) (max_pushes : option Z) : result bytes :=
  let '(_type, address, _amount) := output in
  let max_pushes := effective_max_pushes max_size max_pushes in
  if negb (max_pushes >=? 1) then Raise AssertionError else
  if negb (_type =? TYPE_SCRIPT) then
    Raise (Exception (format "Unexpected output type: {}" (str _type)))
  else
    ops <- get_ops (script address) ;;
    let num_pushes := len ops - 1 in
    if (len ops <? 1) || first_opcode_differs ops then
      Raise (RuntimeError (gettext "Only OP_RETURN scripts are supported."))
    else if (num_pushes <? 1) || (num_pushes >? max_pushes)
            || any_push_without_data ops num_pushes then
      Raise (RuntimeError
               (format (ngettext "OP_RETURN is limited to {max_pushes} data push."
                                 "OP_RETURN is limited to {max_pushes} data pushes."
                                 max_pushes)
                       (str max_pushes)))
    else
      let data := slice_from 2 (script address) in
      if len data >? max_size then
        Raise (RuntimeError
                 (gettext (format "OP_RETURN data size exceeds the maximum of {} bytes."
                                  (str max_size))))
      else if negb (_amount =? 0) then
        Raise (RuntimeError (gettext "Amount for OP_RETURN output must be zero."))
      else Return data.

(** The rejections of the validator, under the names the specification gives
    them; each one is the exception raised at the quoted line. *)
Definition InvalidOutputKind (_type : Z) : exn :=
  Exception (format "Unexpected output type: {}" (str _type)).
Definition MissingMarker : exn :=
  RuntimeError (gettext "Only OP_RETURN scripts are supported.").
Definition TooManyOrInvalidPushes (max_pushes : Z) : exn :=
  RuntimeError
    (format (ngettext "OP_RETURN is limited to {max_pushes} data push."
                      "OP_RETURN is limited to {max_pushes} data pushes."
                      max_pushes)
            (str max_pushes)).
Definition PayloadTooLarge (max_size : Z) : exn :=
  RuntimeError
    (gettext (format "OP_RETURN data size exceeds the maximum of {} bytes."
                     (str max_size))).
Definition NonZeroAmount : exn :=
  RuntimeError (gettext "Amount for OP_RETURN output must be zero.").

(** The two forms of the push-count message, written out. *)
Definition push_limit_singular (max_pushes : Z) : string :=
  ("OP_RETURN is limited to " ++ str max_pushes ++ " data push.")%string.
Definition push_limit_plural (max_pushes : Z) : string :=
  ("OP_RETURN is limited to " ++ str max_pushes ++ " data pushes.")%string.

(** ** The script parser and constants of [electroncash] *)

Module OpCodes.
Definition OP_PUSHDATA1 : Z := 76.
Definition OP_PUSHDATA2 : Z := 77.
Definition OP_PUSHDATA4 : Z := 78.
Definition OP_RETURN : Z := 106.
End OpCodes.

(** The value of one byte, as [script[n]] yields it. *)
Definition byte_val (b : byte) : Z := Z.of_N (Byte.to_N b).

(** A little-endian unsigned integer. *)
Fixpoint le_int (bs : bytes) : Z :=
  match bs with
  | [] => 0
  | b :: rest => byte_val b + 256 * le_int rest
  end.

(** The number of length bytes that follow a push opcode. *)
Definition length_bytes (opcode : Z) : nat :=
  if opcode <? OpCodes.OP_PUSHDATA1 then 0%nat
  else if opcode =? OpCodes.OP_PUSHDATA1 then 1%nat
  else if opcode =? OpCodes.OP_PUSHDATA2 then 2%nat
  else 4%nat.

(** Modelled from the spec: [Script.get_ops] of [electroncash.address] is not
    part of this module.  It is "a flat, non-recursive scan of
    opcode/length/data triples" producing operations "(opcode + optional
    inline data)"; a push is "encoded as a length prefix followed by that many
    data bytes".  Opcodes below [OP_PUSHDATA1] are their own length prefix,
    [OP_PUSHDATA1/2/4] are followed by 1, 2 or 4 little-endian length bytes,
    any other opcode carries no data, and a script that ends inside an
    operation is rejected.  [fuel] bounds the number of operations scanned;
    each one consumes at least one byte. *)
Fixpoint scan_ops (fuel : nat) (rest : bytes) : result (list op) :=
  match rest with
  | [] => Return []
  | b :: after =>
      match fuel with
      | O => Raise (ScriptError "truncated script")
      | S fuel' =>
          let opcode := byte_val b in
          if opcode <=? OpCodes.OP_PUSHDATA4 then
            let nlen := length_bytes opcode in
            if (length after <? nlen)%nat then
              Raise (ScriptError "truncated script")
            else
              let dlen := if opcode <? OpCodes.OP_PUSHDATA1 then opcode
                          else le_int (firstn nlen after) in
              let body := skipn nlen after in
              if dlen >? len body then Raise (ScriptError "truncated script")
              else
                ops <- scan_ops fuel' (skipn (Z.to_nat dlen) body) ;;
                Return ((opcode, Some (firstn (Z.to_nat dlen) body)) :: ops)
          else
            ops <- scan_ops fuel' after ;;
            Return ((opcode, None) :: ops)
      end
  end.

Definition Script_get_ops (script : bytes) : result (list op) :=
  scan_ops (length script) script.

(** The imports as [electroncash] defines them: [TYPE_SCRIPT = 2] in
    [electroncash.bitcoin], [OpCodes.OP_RETURN = 0x6a]. *)
Definition electroncash : Imports :=
  {| TYPE_SCRIPT := 2;
     OP_RETURN := OpCodes.OP_RETURN;
     get_ops := Script_get_ops |}.

(** A push of at most 75 bytes in its direct encoding: the length byte, then
    the data. *)
Definition encode_push (data : bytes) : bytes :=
  match Byte.of_N (N.of_nat (length data)) with
  | Some b => b :: data
  | None => []
  end.

(** The script [OP_RETURN push_1 ... push_k]. *)
Definition op_return_script (pushes : list bytes) : bytes :=
  x6a :: concat (map encode_push pushes).

(** The script [OP_RETURN <2> "hi"] and a script with two pushes. *)
Definition hi_script : bytes := [x6a; x02; x68; x69].
Definition two_push_script : bytes := [x6a; x02; x61; x62; x02; x63; x64].

(** ** Plugins, keystores and wallets *)

(** The attributes of a plugin object that the module reads. *)
Record HW_PluginBase : Type := {
  keystore_class : string;
  libraries_available : bool;
  SUPPORTS_XEC_BIP44_DERIVATION : bool
}.

(** The object held in [keystore.thread]: [stop_attr] is what
    [getattr(thread, 'stop', None)] finds, [None] when the attribute is
    missing and [Some c] when it is present, [c] telling whether it is
    callable. *)
Record ThreadObj : Type := {
  thread_name : string;
  stop_attr : option bool
}.

(** A keystore: [mro] lists its class and the bases of that class, [thread]
    is [None] when [keystore.thread] is [None]. *)
Record KeyStore : Type := {
  mro : list string;
  xpub : string;
  thread : option ThreadObj
}.

Record Abstract_Wallet : Type := { get_keystores : list KeyStore }.

(** [isinstance(keystore, cls)]. *)
Definition isinstance (keystore : KeyStore) (cls : string) : bool :=
  existsb (String.eqb cls) (mro keystore).

(** [callable(getattr(keystore.thread, 'stop', None))]. *)
Definition stop_is_callable (keystore : KeyStore) : bool :=
  match thread keystore with
  | None => false
  | Some t => match stop_attr t with
              | None => false
              | Some c => c
              end
  end.

(** ** Calls to collaborators *)

(** The calls that the cleanup makes on objects outside this module:
    [DeviceMgr.unpair_xpub(xpub)], [finalization_print_error(keystore)] and
    [keystore.thread.stop()]. *)
Inductive call : Type :=
| unpair_xpub (x : string)
| finalization_print_error (keystore : KeyStore)
| thread_stop (keystore : KeyStore).

(** Code with effects runs on a state made of the collaborators' world and
    the log of the calls made so far; a call may raise, which ends the run. *)
Section Effects.

Context {World : Type}.
Variable perform : call -> World -> result unit * World.

Definition state : Type := (World * list call)%type.
Definition M (A : Type) : Type := state -> result A * state.

Definition ret {A : Type} (a : A) : M A := fun s => (Return a, s).

Definition then_ {A : Type} (c1 : M unit) (c2 : M A) : M A :=
  fun s => match c1 s with
           | (Return _, s') => c2 s'
           | (Raise e, s') => (Raise e, s')
           end.

Definition invoke (c : call) : M unit :=
  fun s => let '(w, log) := s in
           let '(r, w') := perform c w in
           (r, (w', log ++ [c])).

(** [for x in l: body(x)]. *)
Fixpoint for_each {A : Type} (l : list A) (body : A -> M unit) : M unit :=
  match l with
  | [] => ret tt
  | x :: rest => then_ (body x) (for_each rest body)
  end.

Definition _cleanup_keystore_extra (self : HW_PluginBase) (keystore : KeyStore)
  : M unit :=
  then_ (invoke (finalization_print_error keystore))
        (if stop_is_callable keystore then invoke (thread_stop keystore)
         else ret tt).

Definition close_wallet (self : HW_PluginBase) (wallet : Abstract_Wallet)
  : M unit :=
  for_each (get_keystores wallet)
    (fun keystore =>
       if isinstance keystore (keystore_class self) then
         then_ (invoke (unpair_xpub (xpub keystore)))
               (_cleanup_keystore_extra self keystore)
       else ret tt).

End Effects.

Arguments state World : clear implicits.
Arguments M World A : clear implicits.

(** The calls one keystore gives rise to when none of them raises. *)
Definition keystore_calls (self : HW_PluginBase) (keystore : KeyStore)
  : list call :=
  if isinstance keystore (keystore_class self) then
    unpair_xpub (xpub keystore) :: finalization_print_error keystore
    :: (if stop_is_callable keystore then [thread_stop keystore] else [])
  else [].

Definition wallet_calls (self : HW_PluginBase) (keystores : list KeyStore)
  : list call :=
  flat_map (keystore_calls self) keystores.

(** A list of calls made one after the other, up to the first that raises. *)
Fixpoint run_calls {World : Type}
    (perform : call -> World -> result unit * World)
    (calls : list call) : M World unit :=
  match calls with
  | [] => ret tt
  | c :: rest => then_ (invoke perform c) (run_calls perform rest)
  end.



(** Modelled from the spec: the device manager and the worker are external
    collaborators.  Unpairing "an already-unpaired xpub is a no-op, not an
    error" and stopping a worker is idempotent; this world keeps the paired
    xpubs and the names of the running workers. *)
Record DeviceWorld : Type := {
  paired : list string;
  running : list string
}.

Definition remove_name (x : string) (l : list string) : list string :=
  filter (fun y => negb (String.eqb x y)) l.

Definition device_perform (c : call) (w : DeviceWorld)
  : result unit * DeviceWorld :=
  match c with
  | unpair_xpub x =>
      (Return tt, {| paired := remove_name x (paired w); running := running w |})
  | finalization_print_error _ => (Return tt, w)
  | thread_stop keystore =>
      match thread keystore with
      | Some t => (Return tt, {| paired := paired w;
                                 running := remove_name (thread_name t) (running w) |})
      | None => (Return tt, w)
      end
  end.

(** A plugin for a keystore class, a wallet holding one keystore of that
    class with a stoppable worker, one of that class without a worker and one
    of another class, and a world where the first two are paired. *)
Definition ledger_plugin : HW_PluginBase :=
  {| keystore_class := "Ledger_KeyStore";
     libraries_available := true;
     SUPPORTS_XEC_BIP44_DERIVATION := false |}.

Definition ledger_keystore : KeyStore :=
  {| mro := ["Ledger_KeyStore"; "Hardware_KeyStore"; "KeyStore"];
     xpub := "xpub-ledger";
     thread := Some {| thread_name := "ledger-worker"; stop_attr := Some true |} |}.

Definition idle_keystore : KeyStore :=
  {| mro := ["Ledger_KeyStore"; "Hardware_KeyStore"; "KeyStore"];
     xpub := "xpub-idle";
     thread := None |}.

Definition trezor_keystore : KeyStore :=
  {| mro := ["Trezor_KeyStore"; "Hardware_KeyStore"; "KeyStore"];
     xpub := "xpub-trezor";
     thread := Some {| thread_name := "trezor-worker"; stop_attr := Some true |} |}.

Definition sample_wallet : Abstract_Wallet :=
  {| get_keystores := [trezor_keystore; ledger_keystore; idle_keystore] |}.

Definition sample_world : DeviceWorld :=
  {| paired := ["xpub-trezor"; "xpub-ledger"; "xpub-idle"];
     running := ["trezor-worker"; "ledger-worker"] |}.

(** ** The optional-library guard *)

(** [only_hook_if_libraries_available(func)]: [args] stands for the positional
    and keyword arguments passed on, [World] for whatever [func] may change. *)
Definition only_hook_if_libraries_available {World Args V : Type}
    (func : HW_PluginBase -> Args -> World -> result (option V) * World)
  : HW_PluginBase -> Args -> World -> result (option V) * World :=
  fun self args w =>
    if negb (libraries_available self) then (Return None, w)
    else func self args w.

(** [func] with a counter of its invocations added to the world. *)
Definition counted {World Args V : Type}
    (func : HW_PluginBase -> Args -> World -> result (option V) * World)
  : HW_PluginBase -> Args -> nat * World -> result (option V) * (nat * World) :=
  fun self args s =>
    let '(r, w') := func self args (snd s) in (r, (S (fst s), w')).

(** ** The abstract methods of the base plugin *)

Section AbstractMethods.

(** [Obj] stands for the arguments the base class never inspects, [Client]
    for [HardwareClientBase]. *)
Variables Obj Client : Type.

Definition setup_device (self : HW_PluginBase) (device_info wizard purpose : Obj)
  : result unit :=
  Raise NotImplementedError.

Definition create_client (self : HW_PluginBase) (device handler : Obj)
  : result (option Client) :=
  Raise NotImplementedError.

Definition get_xpub (self : HW_PluginBase) (device_id : Obj)
    (derivation : string) (xtype wizard : Obj) : result string :=
  Raise NotImplementedError.

(** The three methods as a class provides them. *)
Record PluginMethods : Type := {
  m_setup_device : HW_PluginBase -> Obj -> Obj -> Obj -> result unit;
  m_create_client : HW_PluginBase -> Obj -> Obj -> result (option Client);
  m_get_xpub : HW_PluginBase -> Obj -> string -> Obj -> Obj -> result string
}.

Definition HW_PluginBase_methods : PluginMethods :=
  {| m_setup_device := setup_device;
     m_create_client := create_client;
     m_get_xpub := get_xpub |}.

(** What a subclass body defines: [None] for a method it does not define. *)
Record Overrides : Type := {
  o_setup_device : option (HW_PluginBase -> Obj -> Obj -> Obj -> result unit);
  o_create_client : option (HW_PluginBase -> Obj -> Obj -> result (option Client));
  o_get_xpub :
    option (HW_PluginBase -> Obj -> string -> Obj -> Obj -> result string)
}.

(** Method lookup in a direct subclass of [HW_PluginBase]: its own definition
    when there is one, the inherited one otherwise. *)
Definition subclass_methods (o : Overrides) : PluginMethods :=
  {| m_setup_device := match o_setup_device o with
                       | Some f => f
                       | None => m_setup_device HW_PluginBase_methods
                       end;
     m_create_client := match o_create_client o with
                        | Some f => f
                        | None => m_create_client HW_PluginBase_methods
                        end;
     m_get_xpub := match o_get_xpub o with
                   | Some f => f
                   | None => m_get_xpub HW_PluginBase_methods
                   end |}.

End AbstractMethods.

Arguments m_setup_device {Obj Client} p.
Arguments m_create_client {Obj Client} p.
Arguments m_get_xpub {Obj Client} p.
Arguments o_setup_device {Obj Client} o.
Arguments o_create_client {Obj Client} o.
Arguments o_get_xpub {Obj Client} o.
Arguments subclass_methods {Obj Client} o.
Arguments setup_device {Obj} self device_info wizard purpose.
Arguments create_client {Obj} Client self device handler.
Arguments get_xpub {Obj} self device_id derivation xtype wizard.

(** [is_enabled] and [supports_xec_bip44_derivation]. *)
Definition is_enabled (self : HW_PluginBase) : bool := true.
Definition supports_xec_bip44_derivation (self : HW_PluginBase) : bool :=
  SUPPORTS_XEC_BIP44_DERIVATION self.

(** ** Showing an address on the device *)

(** The wallet as [show_address_helper] queries it: [wallet.get_keystore()]
    and [wallet.is_mine(address)]. *)
Record Wallet_Queries : Type := {
  get_keystore : KeyStore;
  is_mine : string -> bool
}.

(** [type(keystore) != cls]: the class of the object itself, the head of its
    [mro], is compared; base classes play no part. *)
Definition type_differs (keystore : KeyStore) (cls : string) : bool :=
  match hd_error (mro keystore) with
  | Some c => negb (String.eqb c cls)
  | None => true
  end.

Section AddressDisplay.

Context {World : Type}.

(** [keystore.handler.show_error(message)], a call on the user interface
    that may raise. *)
Variable show_error : KeyStore -> string -> World -> result unit * World.

Definition show_address_helper (self : HW_PluginBase) (wallet : Wallet_Queries)
    (address : string) (keystore : option KeyStore) (w : World)
  : result bool * World :=
  let keystore := match keystore with
                  | None => get_keystore wallet
                  | Some k => k
                  end in
  if negb (is_mine wallet address) then
    match show_error keystore (gettext "Address not in wallet.") w with
    | (Return _, w') => (Return false, w')
    | (Raise e, w') => (Raise e, w')
    end
  else if type_differs keystore (keystore_class self) then (Return false, w)
  else (Return true, w).

End AddressDisplay.

(** A user interface that records the messages shown. *)
Definition recording_show_error (keystore : KeyStore) (msg : string)
    (shown : list (string * string)) : result unit * list (string * string) :=
  (Return tt, shown ++ [(xpub keystore, msg)]).

(** ** Outputs on the change branch *)

Section ChangeBranch.

(** [Addr] is the type of the address objects used as dictionary keys, with
    their equality; [Info] is the type of the values of [tx.output_info], of
    which only [info[0][0]] is read. *)
Variables Addr Info : Type.
Variable addr_eqb : Addr -> Addr -> bool.
Variable change_flag : Info -> Z.

(** A transaction: [tx.output_info] is [None] or a dictionary, here the list
    of its items; [tx.outputs()] is a list of [(type, address, amount)]. *)
Record Transaction : Type := {
  output_info : option (list (Addr * Info));
  outputs : list (Z * Addr * Z)
}.

(** [d.get(key)]. *)
Fixpoint dict_get (d : list (Addr * Info)) (key : Addr) : option Info :=
  match d with
  | [] => None
  | (k, v) :: rest => if addr_eqb key k then Some v else dict_get rest key
  end.

(** [not tx.output_info]: true for [None] and for the empty dictionary. *)
Definition no_output_info (tx : Transaction) : bool :=
  match output_info tx with
  | None => true
  | Some [] => true
  | Some (_ :: _) => false
  end.

(** The loop over the outputs, left at the first output on the change
    branch. *)
Fixpoint any_output_on_change_branch (d : list (Addr * Info))
    (outs : list (Z * Addr * Z)) : bool :=
  match outs with
  | [] => false
  | o :: rest =>
      match dict_get d (snd (fst o)) with
      | Some info =>
          if change_flag info =? 1 then true
          else any_output_on_change_branch d rest
      | None => any_output_on_change_branch d rest
      end
  end.

Definition is_any_tx_output_on_change_branch (tx : Transaction) : bool :=
  if no_output_info tx then false
  else
    match output_info tx with
    | Some d => any_output_on_change_branch d (outputs tx)
    | None => false
    end.

End ChangeBranch.

Arguments output_info {Addr Info} t.
Arguments outputs {Addr Info} t.
Arguments dict_get {Addr Info} addr_eqb d key.
Arguments no_output_info {Addr Info} tx.
Arguments any_output_on_change_branch {Addr Info} addr_eqb change_flag d outs.
Arguments is_any_tx_output_on_change_branch {Addr Info} addr_eqb change_flag tx.

(** ** Kinds of collaborator calls *)

Definition is_unpair (c : call) : bool :=
  match c with unpair_xpub _ => true | _ => false end.
Definition is_finalization (c : call) : bool :=
  match c with finalization_print_error _ => true | _ => false end.
Definition is_stop (c : call) : bool :=
  match c with thread_stop _ => true | _ => false end.

(** [unpair_xpub(x)] for the given [x]. *)
Definition is_unpair_of (x : string) (c : call) : bool :=
  match c with unpair_xpub y => String.eqb x y | _ => false end.

(** The collaborators' world after the given calls have been made one after
    the other, each on the world the one before left. *)
Definition world_after {World : Type}
    (perform : call -> World -> result unit * World)
    (calls : list call) (w : World) : World :=
  fold_left (fun w0 c => snd (perform c w0)) calls w.

(** Each of the given calls, made one after the other from the world [w],
    returns normally. *)
Fixpoint all_return {World : Type}
    (perform : call -> World -> result unit * World)
    (calls : list call) (w : World) : Prop :=
  match calls with
  | [] => True
  | c :: rest =>
      fst (perform c w) = Return tt
      /\ all_return perform rest (snd (perform c w))
  end.

(** A collaborator whose [stop] raises once the worker named [name] has been
    stopped, and which is otherwise [device_perform]. *)
Definition strict_perform (c : call) (w : DeviceWorld)
  : result unit * DeviceWorld :=
  match c with
  | thread_stop keystore =>
      match thread keystore with
      | Some t =>
          if existsb (String.eqb (thread_name t)) (running w)
          then device_perform c w
          else (Raise (ExternalError "worker already stopped"), w)
      | None => device_perform c w
      end
  | _ => device_perform c w
  end.

(** * Properties *)

(** ** Concrete runs of the validator *)

Example hi_ops :
  @get_ops electroncash hi_script = Return [(106, None); (2, Some [x68; x69])].
Proof. reflexivity. Qed.

Example two_pushes_rejected :
  @validate_op_return_output_and_get_data electroncash
    (2, {| script := two_push_script |}, 0) 220 (Some 1)
  = Raise (TooManyOrInvalidPushes 1).
Proof. reflexivity. Qed.

Example two_pushes_accepted :
  @validate_op_return_output_and_get_data electroncash
    (2, {| script := two_push_script |}, 0) 220 (Some 2)
  = Return [x61; x62; x02; x63; x64].
Proof. reflexivity. Qed.

Example address_output_rejected :
  @validate_op_return_output_and_get_data electroncash
    (0, {| script := hi_script |}, 0) 220 (Some 1)
  = Raise (Exception "Unexpected output type: 0").
Proof. reflexivity. Qed.

(** ** Messages *)

Lemma format_push_limit_singular (v : string) :
  format "OP_RETURN is limited to {max_pushes} data push." v
  = ("OP_RETURN is limited to " ++ v ++ " data push.")%string.
Proof. reflexivity. Qed.

Lemma format_push_limit_plural (v : string) :
  format "OP_RETURN is limited to {max_pushes} data pushes." v
  = ("OP_RETURN is limited to " ++ v ++ " data pushes.")%string.
Proof. reflexivity. Qed.

Lemma string_length_app (a b : string) :
  String.length (a ++ b) = (String.length a + String.length b)%nat.
Proof. induction a as [|c a IH]; simpl; [reflexivity | now rewrite IH]. Qed.

Lemma push_limit_forms_differ (n : Z) :
  push_limit_singular n <> push_limit_plural n.
Proof.
  unfold push_limit_singular, push_limit_plural. intros E.
  apply (f_equal String.length) in E.
  rewrite !string_length_app in E. simpl in E. lia.
Qed.

Lemma TooManyOrInvalidPushes_message (n : Z) :
  TooManyOrInvalidPushes n
  = RuntimeError (if n =? 1 then push_limit_singular n else push_limit_plural n).
Proof.
  unfold TooManyOrInvalidPushes, ngettext.
  destruct (n =? 1);
    [rewrite format_push_limit_singular | rewrite format_push_limit_plural];
    reflexivity.
Qed.

(** ** The steps of the validator *)

Lemma any_missing_from (pre rest : list op) :
  existsb
    (fun i => match nth_error (pre ++ rest) i with
              | Some o => match snd o with None => true | Some _ => false end
              | None => false
              end)
    (seq (length pre) (length rest))
  = existsb (fun o => negb (has_data o)) rest.
Proof.
  revert pre. induction rest as [|o rest IH]; intros pre; [reflexivity|].
  cbn [length seq existsb].
  rewrite nth_error_app2 by lia. rewrite Nat.sub_diag. cbn [nth_error].
  f_equal.
  - unfold has_data. now destruct (snd o).
  - specialize (IH (pre ++ [o])).
    rewrite <- app_assoc in IH. cbn [app] in IH.
    rewrite length_app in IH. cbn [length] in IH.
    now replace (length pre + 1)%nat with (S (length pre)) in IH by lia.
Qed.

Lemma any_push_without_data_tail (marker : op) (pushes : list op) :
  any_push_without_data (marker :: pushes) (len (marker :: pushes) - 1)
  = existsb (fun o => negb (has_data o)) pushes.
Proof.
  unfold any_push_without_data, len. cbn [length].
  replace (Z.to_nat (Z.of_nat (S (length pushes)) - 1)) with (length pushes) by lia.
  cbn [nth_error]. exact (any_missing_from [] pushes).
Qed.

Lemma existsb_no_data_false (pushes : list op) :
  Forall (fun o => snd o <> None) pushes ->
  existsb (fun o => negb (has_data o)) pushes = false.
Proof.
  induction 1 as [|o l Ho _ IH]; [reflexivity|].
  cbn [existsb]. rewrite IH. unfold has_data.
  destruct (snd o); [reflexivity | congruence].
Qed.

Lemma existsb_no_data_true (pushes : list op) :
  Exists (fun o => snd o = None) pushes ->
  existsb (fun o => negb (has_data o)) pushes = true.
Proof.
  induction 1 as [o l Ho | o l _ IH]; cbn [existsb].
  - unfold has_data. now rewrite Ho.
  - rewrite IH. apply orb_true_r.
Qed.

(** Once the assertion and the kind check have passed and the script has
    been parsed, the remaining checks run in this order. *)
Lemma validate_steps `{Imports} (address : ScriptOutput) (_amount max_size : Z)
    (max_pushes : option Z) (ops : list op) :
  1 <= effective_max_pushes max_size max_pushes ->
  get_ops (script address) = Return ops ->
  validate_op_return_output_and_get_data (TYPE_SCRIPT, address, _amount)
    max_size max_pushes
  = match ops with
    | [] => Raise MissingMarker
    | marker :: pushes =>
        if negb (fst marker =? OP_RETURN) then Raise MissingMarker
        else if (len pushes <? 1)
                || (len pushes >? effective_max_pushes max_size max_pushes)
                || existsb (fun o => negb (has_data o)) pushes
        then Raise (TooManyOrInvalidPushes
                      (effective_max_pushes max_size max_pushes))
        else if len (slice_from 2 (script address)) >? max_size
        then Raise (PayloadTooLarge max_size)
        else if negb (_amount =? 0) then Raise NonZeroAmount
        else Return (slice_from 2 (script address))
    end.
Proof.
  intros Hpre Hops. unfold validate_op_return_output_and_get_data.
  replace (effective_max_pushes max_size max_pushes >=? 1) with true
    by (symmetry; apply Z.geb_le; lia).
  rewrite Z.eqb_refl, Hops. cbn [negb bind].
  destruct ops as [|marker pushes]; [reflexivity|].
  rewrite any_push_without_data_tail.
  replace (len (marker :: pushes) - 1) with (len pushes)
    by (unfold len; cbn [length]; lia).
  replace (len (marker :: pushes) <? 1) with false
    by (symmetry; apply Z.ltb_ge; unfold len; cbn [length]; lia).
  unfold first_opcode_differs. cbn [nth_error orb].
  reflexivity.
Qed.

(** ** The parser *)

Lemma scan_ops_nil (fuel : nat) : scan_ops fuel [] = Return [].
Proof. destruct fuel; reflexivity. Qed.

(** The scan never runs out of fuel when it is given the length of the
    script: any larger amount gives the same operations. *)
Lemma scan_ops_fuel (fuel fuel' : nat) (rest : bytes) :
  (length rest <= fuel)%nat -> (length rest <= fuel')%nat ->
  scan_ops fuel rest = scan_ops fuel' rest.
Proof.
  revert fuel' rest.
  induction fuel as [|fuel IH]; intros fuel' rest Hf Hf'.
  - destruct rest; [now rewrite !scan_ops_nil | cbn [length] in Hf; lia].
  - destruct rest as [|b after]; [now rewrite !scan_ops_nil|].
    destruct fuel' as [|fuel']; [cbn [length] in Hf'; lia|].
    cbn [length] in Hf, Hf'. cbn [scan_ops].
    destruct (byte_val b <=? OpCodes.OP_PUSHDATA4).
    + destruct (length after <? length_bytes (byte_val b))%nat; [reflexivity|].
      match goal with |- context [if ?c then _ else bind _ _] => destruct c end;
        [reflexivity|].
      rewrite (IH fuel'); [reflexivity | |];
        rewrite !length_skipn; lia.
    + rewrite (IH fuel'); [reflexivity | lia | lia].
Qed.

Lemma Script_get_ops_fuel (fuel : nat) (script : bytes) :
  (length script <= fuel)%nat -> scan_ops fuel script = Script_get_ops script.
Proof. intros Hf. unfold Script_get_ops. apply scan_ops_fuel; lia. Qed.

Lemma encode_push_shape (data : bytes) :
  (length data <= 75)%nat ->
  exists b, encode_push data = b :: data /\ byte_val b = len data.
Proof.
  intros Hlen. unfold encode_push.
  destruct (Byte.of_N (N.of_nat (length data))) as [b|] eqn:E.
  - exists b. split; [reflexivity|].
    unfold byte_val, len. apply Byte.to_of_N in E. rewrite E. lia.
  - apply Byte.of_N_None_iff in E. lia.
Qed.

Lemma scan_ops_push (fuel : nat) (data rest : bytes) :
  (length data <= 75)%nat ->
  scan_ops (S fuel) (encode_push data ++ rest)
  = (ops <- scan_ops fuel rest ;; Return ((len data, Some data) :: ops)).
Proof.
  intros Hlen. destruct (encode_push_shape data Hlen) as [b [-> Hb]].
  rewrite <- app_comm_cons. cbn [scan_ops]. rewrite Hb.
  assert (Hk : len data <= 75) by (unfold len; lia).
  replace (len data <=? OpCodes.OP_PUSHDATA4) with true
    by (symmetry; apply Z.leb_le; unfold OpCodes.OP_PUSHDATA4; lia).
  unfold length_bytes.
  replace (len data <? OpCodes.OP_PUSHDATA1) with true
    by (symmetry; apply Z.ltb_lt; unfold OpCodes.OP_PUSHDATA1; lia).
  cbn [Nat.ltb Nat.leb skipn].
  replace (len data >? len (data ++ rest)) with false
    by (symmetry; rewrite Z.gtb_ltb; apply Z.ltb_ge;
        unfold len; rewrite length_app; lia).
  replace (Z.to_nat (len data)) with (length data) by (unfold len; lia).
  rewrite skipn_app, skipn_all, Nat.sub_diag.
  rewrite firstn_app, firstn_all, Nat.sub_diag.
  cbn [skipn firstn app]. now rewrite app_nil_r.
Qed.

Lemma scan_ops_pushes (pushes : list bytes) (fuel : nat) :
  Forall (fun data => (length data <= 75)%nat) pushes ->
  (length pushes <= fuel)%nat ->
  scan_ops fuel (concat (map encode_push pushes))
  = Return (map (fun data => (len data, Some data)) pushes).
Proof.
  intros Hall. revert fuel.
  induction Hall as [|data pushes Hdata _ IH]; intros fuel Hfuel.
  - apply scan_ops_nil.
  - destruct fuel as [|fuel]; [cbn [length] in Hfuel; lia|].
    cbn [map concat]. rewrite (scan_ops_push fuel data _ Hdata).
    rewrite IH by (cbn [length] in Hfuel; lia). reflexivity.
Qed.

Lemma encoded_pushes_length (pushes : list bytes) :
  Forall (fun data => (length data <= 75)%nat) pushes ->
  (length pushes <= length (concat (map encode_push pushes)))%nat.
Proof.
  induction 1 as [|data pushes Hdata _ IH]; [reflexivity|].
  destruct (encode_push_shape data Hdata) as [b [E _]].
  cbn [map concat length]. rewrite E. cbn [app length].
  rewrite length_app. cbn [length]. lia.
Qed.

(** The parser recovers the pushes of [OP_RETURN push_1 ... push_k]. *)
Lemma get_ops_op_return_script (pushes : list bytes) :
  Forall (fun data => (length data <= 75)%nat) pushes ->
  @get_ops electroncash (op_return_script pushes)
  = Return ((OpCodes.OP_RETURN, None)
            :: map (fun data => (len data, Some data)) pushes).
Proof.
  intros Hall. cbn [get_ops electroncash].
  unfold Script_get_ops, op_return_script. cbn [length scan_ops].
  replace (byte_val x6a <=? OpCodes.OP_PUSHDATA4) with false by reflexivity.
  rewrite scan_ops_pushes by (auto using encoded_pushes_length).
  reflexivity.
Qed.

Lemma scan_ops_raises (fuel : nat) (rest : bytes) (e : exn) :
  scan_ops fuel rest = Raise e -> e = ScriptError "truncated script".
Proof.
  revert rest. induction fuel as [|fuel IH]; intros rest.
  - destruct rest; cbn [scan_ops]; congruence.
  - destruct rest as [|b after]; cbn [scan_ops]; [congruence|].
    destruct (byte_val b <=? OpCodes.OP_PUSHDATA4).
    + destruct (length after <? length_bytes (byte_val b))%nat; [congruence|].
      match goal with |- context [if ?c then _ else bind _ _] => destruct c end;
        [congruence|].
      match goal with |- context [scan_ops fuel ?r] =>
        specialize (IH r); destruct (scan_ops fuel r) end;
        cbn [bind]; [congruence | intros [= <-]; now apply IH].
    + specialize (IH after). destruct (scan_ops fuel after);
        cbn [bind]; [congruence | intros [= <-]; now apply IH].
Qed.

(** ** The validator: accepted outputs *)

Lemma len_map {A B : Type} (f : A -> B) (l : list A) : len (map f l) = len l.
Proof. unfold len. now rewrite length_map. Qed.

Ltac pass_check :=
  match goal with
  | |- context [if ?c then _ else _] =>
      replace c with false;
      [| symmetry;
         repeat (apply orb_false_intro);
         first [ apply Z.ltb_ge; lia
               | rewrite Z.gtb_ltb; apply Z.ltb_ge; lia
               | apply negb_false_iff, Z.eqb_eq; assumption
               | apply negb_false_iff, Z.eqb_eq; lia
               | apply existsb_no_data_false; assumption ] ]
  end.

(** C1, as amended.  An output of script kind with amount zero whose script
    parses as the marker followed by [k] data pushes, [1 <= k <= max_pushes],
    and whose bytes after the first two number at most [max_size], is
    accepted, and the bytes returned are [script[2:]]: the script without the
    marker byte and the one byte after it.  When every push is directly
    encoded (at most 75 bytes) that is the concatenation of the push
    encodings without its first byte, the length prefix of the first push.
    The result is a function of the input.  For [OP_RETURN <2> "hi"], amount
    0, [max_size = 220], [max_pushes = 1] the bytes returned are [68 69]; for
    the same push encoded with [OP_PUSHDATA1], [6a 4c 02 68 69], the byte
    dropped after the marker is the [OP_PUSHDATA1] opcode and the bytes
    returned are [02 68 69]. *)
Theorem validate_returns_script_after_two_bytes :
  (forall (I : Imports) (address : ScriptOutput) (max_size : Z)
          (max_pushes : option Z) (marker : op) (pushes : list op),
      get_ops (script address) = Return (marker :: pushes) ->
      fst marker = OP_RETURN ->
      Forall (fun o => snd o <> None) pushes ->
      1 <= len pushes <= effective_max_pushes max_size max_pushes ->
      len (slice_from 2 (script address)) <= max_size ->
      validate_op_return_output_and_get_data (TYPE_SCRIPT, address, 0)
        max_size max_pushes
      = Return (slice_from 2 (script address)))
  /\ (forall (pushes : list bytes) (max_size : Z) (max_pushes : option Z),
      Forall (fun data => (length data <= 75)%nat) pushes ->
      1 <= len pushes <= effective_max_pushes max_size max_pushes ->
      len (concat (map encode_push pushes)) - 1 <= max_size ->
      @validate_op_return_output_and_get_data electroncash
        (2, {| script := op_return_script pushes |}, 0) max_size max_pushes
      = Return (tl (concat (map encode_push pushes))))
  /\ (forall (I : Imports) (o : output) (max_size : Z) (max_pushes : option Z)
             (r1 r2 : result bytes),
      validate_op_return_output_and_get_data o max_size max_pushes = r1 ->
      validate_op_return_output_and_get_data o max_size max_pushes = r2 ->
      r1 = r2)
  /\ @validate_op_return_output_and_get_data electroncash
       (2, {| script := hi_script |}, 0) 220 (Some 1)
     = Return [x68; x69]
  /\ @validate_op_return_output_and_get_data electroncash
       (2, {| script := [x6a; x4c; x02; x68; x69] |}, 0) 220 (Some 1)
     = Return [x02; x68; x69].
Proof.
  assert (General : forall (I : Imports) address max_size max_pushes marker pushes,
      get_ops (script address) = Return (marker :: pushes) ->
      fst marker = OP_RETURN ->
      Forall (fun o => snd o <> None) pushes ->
      1 <= len pushes <= effective_max_pushes max_size max_pushes ->
      len (slice_from 2 (script address)) <= max_size ->
      validate_op_return_output_and_get_data (TYPE_SCRIPT, address, 0)
        max_size max_pushes
      = Return (slice_from 2 (script address))).
  { intros I address max_size max_pushes marker pushes Hops Hm Hdata Hk Hsize.
    rewrite (validate_steps address 0 max_size max_pushes _ ltac:(lia) Hops).
    repeat pass_check. reflexivity. }
  split; [exact General|]. split; [|split; [|split]].
  - intros pushes max_size max_pushes Hall Hk Hsize.
    pose proof (encoded_pushes_length pushes Hall) as Hlen.
    assert (Htl : slice_from 2 (op_return_script pushes)
                  = tl (concat (map encode_push pushes))).
    { unfold slice_from, op_return_script. cbn [skipn].
      now destruct (concat (map encode_push pushes)). }
    rewrite <- Htl.
    apply (General electroncash {| script := op_return_script pushes |}
             max_size max_pushes (OpCodes.OP_RETURN, None)
             (map (fun data => (len data, Some data)) pushes)).
    + cbn [script]. now apply get_ops_op_return_script.
    + reflexivity.
    + apply Forall_forall. intros o Ho. apply in_map_iff in Ho.
      destruct Ho as [data [<- _]]. discriminate.
    + now rewrite len_map.
    + cbn [script]. rewrite Htl.
      destruct (concat (map encode_push pushes)) as [|b c] eqn:E.
      * unfold len in *. cbn [length] in *. lia.
      * unfold len in *. cbn [tl length] in *. lia.
  - intros I o max_size max_pushes r1 r2 H1 H2. now rewrite <- H1, <- H2.
  - reflexivity.
  - reflexivity.
Qed.

Lemma validate_returns_script_after_two_bytes_witness :
  @validate_op_return_output_and_get_data electroncash
    (2, {| script := two_push_script |}, 0) 5 None
  = Return [x61; x62; x02; x63; x64].
Proof.
  apply (proj1 validate_returns_script_after_two_bytes electroncash
           {| script := two_push_script |} 5 None (106, None)
           [(2, Some [x61; x62]); (2, Some [x63; x64])]).
  - reflexivity.
  - reflexivity.
  - repeat constructor; discriminate.
  - cbv; split; discriminate.
  - cbv; discriminate.
Defined.

(** C1, as stated, fails on its own example: the script parses as the marker
    followed by one push of two bytes, every bound holds, and the bytes
    returned are [68 69], not [02 68 69]. *)
Lemma validate_hi_does_not_return_length_prefix :
  @get_ops electroncash hi_script = Return [(106, None); (2, Some [x68; x69])]
  /\ @validate_op_return_output_and_get_data electroncash
       (2, {| script := hi_script |}, 0) 220 (Some 1)
     = Return [x68; x69]
  /\ @validate_op_return_output_and_get_data electroncash
       (2, {| script := hi_script |}, 0) 220 (Some 1)
     <> Return [x02; x68; x69].
Proof. repeat split. discriminate. Qed.

(** ** The validator: rejections *)

(** C2, as amended.  When the leading assertion holds (the effective
    [max_pushes] is at least 1), an output of script kind whose parsed script
    is empty or starts with an operation other than the marker is rejected
    with MissingMarker, whatever follows that operation. *)
Theorem validate_missing_marker :
  forall (I : Imports) (address : ScriptOutput) (_amount max_size : Z)
         (max_pushes : option Z) (ops : list op),
    1 <= effective_max_pushes max_size max_pushes ->
    get_ops (script address) = Return ops ->
    (forall first rest, ops = first :: rest -> fst first <> OP_RETURN) ->
    validate_op_return_output_and_get_data (TYPE_SCRIPT, address, _amount)
      max_size max_pushes
    = Raise MissingMarker.
Proof.
  intros I address _amount max_size max_pushes ops Hpre Hops Hfirst.
  rewrite (validate_steps address _amount max_size max_pushes ops Hpre Hops).
  destruct ops as [|first rest]; [reflexivity|].
  specialize (Hfirst first rest eq_refl).
  apply Z.eqb_neq in Hfirst. now rewrite Hfirst.
Qed.

Lemma validate_missing_marker_witness :
  @validate_op_return_output_and_get_data electroncash
    (2, {| script := [x76; xa9; x6a] |}, 0) 220 (Some 1)
  = Raise MissingMarker
  /\ @validate_op_return_output_and_get_data electroncash
       (2, {| script := [] |}, 0) 220 None
     = Raise MissingMarker.
Proof.
  split.
  - apply (validate_missing_marker electroncash {| script := [x76; xa9; x6a] |}
             0 220 (Some 1) [(118, None); (169, None); (106, None)]).
    + cbv; discriminate.
    + reflexivity.
    + intros first rest [= <- _]. cbv; discriminate.
  - apply (validate_missing_marker electroncash {| script := [] |}
             0 220 None []).
    + cbv; discriminate.
    + reflexivity.
    + intros first rest [=].
Defined.

(** C2, as stated, fails when [max_pushes] is below 1: the script does not
    start with the marker, yet the call ends in the assertion, not in
    MissingMarker. *)
Lemma validate_missing_marker_behind_assertion :
  @get_ops electroncash [x76; xa9; x6a]
  = Return [(118, None); (169, None); (106, None)]
  /\ @validate_op_return_output_and_get_data electroncash
       (2, {| script := [x76; xa9; x6a] |}, 0) 220 (Some 0)
     = Raise AssertionError
  /\ @validate_op_return_output_and_get_data electroncash
       (2, {| script := [x76; xa9; x6a] |}, 0) 220 (Some 0)
     <> Raise MissingMarker.
Proof. repeat split. discriminate. Qed.

(** C3, as amended.  When the leading assertion holds (the effective
    [max_pushes] is at least 1), an output of script kind whose script is the
    marker followed by [k] operations is rejected with TooManyOrInvalidPushes
    if [k = 0], or [k] exceeds the effective [max_pushes], or one of the [k]
    operations carries no data; the message is the singular form exactly when
    the effective [max_pushes] is 1 and the plural form otherwise. *)
Theorem validate_too_many_or_invalid_pushes :
  forall (I : Imports) (address : ScriptOutput) (_amount max_size : Z)
         (max_pushes : option Z) (marker : op) (pushes : list op),
    1 <= effective_max_pushes max_size max_pushes ->
    get_ops (script address) = Return (marker :: pushes) ->
    fst marker = OP_RETURN ->
    len pushes = 0
    \/ len pushes > effective_max_pushes max_size max_pushes
    \/ Exists (fun o => snd o = None) pushes ->
    let n := effective_max_pushes max_size max_pushes in
    validate_op_return_output_and_get_data (TYPE_SCRIPT, address, _amount)
      max_size max_pushes
    = Raise (TooManyOrInvalidPushes n)
    /\ (n = 1 ->
        TooManyOrInvalidPushes n
        = RuntimeError "OP_RETURN is limited to 1 data push.")
    /\ (n <> 1 ->
        TooManyOrInvalidPushes n = RuntimeError (push_limit_plural n))
    /\ (TooManyOrInvalidPushes n = RuntimeError (push_limit_singular n)
        <-> n = 1).
Proof.
  intros I address _amount max_size max_pushes marker pushes Hpre Hops Hm Hbad n.
  split; [|split; [|split]].
  - rewrite (validate_steps address _amount max_size max_pushes _ Hpre Hops).
    pass_check. fold n.
    replace ((len pushes <? 1) || (len pushes >? n)
             || existsb (fun o => negb (has_data o)) pushes) with true;
      [reflexivity|].
    symmetry. destruct Hbad as [H0 | [Hmany | Hnone]].
    + replace (len pushes <? 1) with true by (symmetry; apply Z.ltb_lt; lia).
      reflexivity.
    + replace (len pushes >? n) with true
        by (symmetry; rewrite Z.gtb_ltb; apply Z.ltb_lt; subst n; lia).
      now rewrite orb_true_r.
    + rewrite (existsb_no_data_true pushes Hnone). now rewrite orb_true_r.
  - intros ->. reflexivity.
  - intros Hn. rewrite TooManyOrInvalidPushes_message.
    apply Z.eqb_neq in Hn. now rewrite Hn.
  - rewrite TooManyOrInvalidPushes_message. split.
    + intros E. destruct (n =? 1) eqn:Hn; [now apply Z.eqb_eq|].
      apply (f_equal (fun e => match e with RuntimeError m => m | _ => EmptyString end))
        in E.
      change (push_limit_plural n = push_limit_singular n) in E.
      symmetry in E. now apply push_limit_forms_differ in E.
    + intros ->. reflexivity.
Qed.

Lemma validate_too_many_or_invalid_pushes_witness :
  @validate_op_return_output_and_get_data electroncash
    (2, {| script := two_push_script |}, 0) 220 (Some 1)
  = Raise (RuntimeError "OP_RETURN is limited to 1 data push.")
  /\ @validate_op_return_output_and_get_data electroncash
       (2, {| script := [x6a; x01; x41; x51] |}, 0) 220 (Some 3)
     = Raise (RuntimeError "OP_RETURN is limited to 3 data pushes.").
Proof.
  split.
  - apply (validate_too_many_or_invalid_pushes electroncash
             {| script := two_push_script |} 0 220 (Some 1) (106, None)
             [(2, Some [x61; x62]); (2, Some [x63; x64])]).
    + cbv; discriminate.
    + reflexivity.
    + reflexivity.
    + right; left. reflexivity.
  - apply (validate_too_many_or_invalid_pushes electroncash
             {| script := [x6a; x01; x41; x51] |} 0 220 (Some 3) (106, None)
             [(1, Some [x41]); (81, None)]).
    + cbv; discriminate.
    + reflexivity.
    + reflexivity.
    + right; right. apply Exists_cons_tl, Exists_cons_hd. reflexivity.
Defined.

(** C3, as stated, fails when [max_pushes] is below 1: the script is the
    marker followed by one push, which exceeds [max_pushes = 0], yet the call
    ends in the assertion, not in TooManyOrInvalidPushes. *)
Lemma validate_too_many_pushes_behind_assertion :
  @get_ops electroncash hi_script = Return [(106, None); (2, Some [x68; x69])]
  /\ @validate_op_return_output_and_get_data electroncash
       (2, {| script := hi_script |}, 0) 220 (Some 0)
     = Raise AssertionError
  /\ (forall n : Z,
      @validate_op_return_output_and_get_data electroncash
        (2, {| script := hi_script |}, 0) 220 (Some 0)
      <> Raise (TooManyOrInvalidPushes n)).
Proof. repeat split. intros n. discriminate. Qed.

(** C4.  An output of script kind that passes the marker and push-count
    checks is rejected with PayloadTooLarge when the extracted payload,
    [script[2:]], is longer than [max_size], although the number of pushes is
    within the bound; the amount plays no part. *)
Theorem validate_payload_too_large :
  forall (I : Imports) (address : ScriptOutput) (_amount max_size : Z)
         (max_pushes : option Z) (marker : op) (pushes : list op),
    get_ops (script address) = Return (marker :: pushes) ->
    fst marker = OP_RETURN ->
    Forall (fun o => snd o <> None) pushes ->
    1 <= len pushes <= effective_max_pushes max_size max_pushes ->
    len (slice_from 2 (script address)) > max_size ->
    validate_op_return_output_and_get_data (TYPE_SCRIPT, address, _amount)
      max_size max_pushes
    = Raise (PayloadTooLarge max_size).
Proof.
  intros I address _amount max_size max_pushes marker pushes
         Hops Hm Hdata Hk Hsize.
  rewrite (validate_steps address _amount max_size max_pushes _ ltac:(lia) Hops).
  repeat pass_check.
  replace (len (slice_from 2 (script address)) >? max_size) with true
    by (symmetry; rewrite Z.gtb_ltb; apply Z.ltb_lt; lia).
  reflexivity.
Qed.

Lemma validate_payload_too_large_witness :
  @validate_op_return_output_and_get_data electroncash
    (2, {| script := two_push_script |}, 0) 4 (Some 2)
  = Raise (RuntimeError "OP_RETURN data size exceeds the maximum of 4 bytes.").
Proof.
  apply (validate_payload_too_large electroncash
           {| script := two_push_script |} 0 4 (Some 2) (106, None)
           [(2, Some [x61; x62]); (2, Some [x63; x64])]).
  - reflexivity.
  - reflexivity.
  - repeat constructor; discriminate.
  - cbv; split; discriminate.
  - reflexivity.
Defined.

(** C5.  An output of script kind whose script passes the marker, push-count
    and size checks is rejected with NonZeroAmount when its amount is not
    zero; so is [OP_RETURN <2> "hi"] with amount 546. *)
Theorem validate_non_zero_amount :
  (forall (I : Imports) (address : ScriptOutput) (_amount max_size : Z)
          (max_pushes : option Z) (marker : op) (pushes : list op),
      get_ops (script address) = Return (marker :: pushes) ->
      fst marker = OP_RETURN ->
      Forall (fun o => snd o <> None) pushes ->
      1 <= len pushes <= effective_max_pushes max_size max_pushes ->
      len (slice_from 2 (script address)) <= max_size ->
      _amount <> 0 ->
      validate_op_return_output_and_get_data (TYPE_SCRIPT, address, _amount)
        max_size max_pushes
      = Raise NonZeroAmount)
  /\ @validate_op_return_output_and_get_data electroncash
       (2, {| script := hi_script |}, 546) 220 (Some 1)
     = Raise NonZeroAmount.
Proof.
  split; [|reflexivity].
  intros I address _amount max_size max_pushes marker pushes
         Hops Hm Hdata Hk Hsize Hamount.
  rewrite (validate_steps address _amount max_size max_pushes _ ltac:(lia) Hops).
  repeat pass_check.
  apply Z.eqb_neq in Hamount. now rewrite Hamount.
Qed.

Lemma validate_non_zero_amount_witness :
  @validate_op_return_output_and_get_data electroncash
    (2, {| script := two_push_script |}, -1) 5 None
  = Raise (RuntimeError "Amount for OP_RETURN output must be zero.").
Proof.
  apply (proj1 validate_non_zero_amount electroncash
           {| script := two_push_script |} (-1) 5 None (106, None)
           [(2, Some [x61; x62]); (2, Some [x63; x64])]).
  - reflexivity.
  - reflexivity.
  - repeat constructor; discriminate.
  - cbv; split; discriminate.
  - cbv; discriminate.
  - discriminate.
Defined.

(** C6.  For every output and every [max_size], the call with
    [max_pushes = None] and the call with [max_pushes = max_size] have the
    same outcome: the same bytes returned or the same exception with the same
    message. *)
Theorem validate_None_is_max_size :
  forall (I : Imports) (o : output) (max_size : Z),
    validate_op_return_output_and_get_data o max_size None
    = validate_op_return_output_and_get_data o max_size (Some max_size).
Proof. intros I [[_type address] _amount] max_size. reflexivity. Qed.

(** C10, as amended.  A call with an explicit [max_pushes] below 1 ends in
    the assertion whatever the output, the imports and the parser are, so
    before any validation step; so does a call with [max_pushes = None] and
    [max_size] below 1.  When the effective [max_pushes] (the given one, or
    [max_size] for [None]) is at least 1 the assertion does not fail: the
    validator ends in an AssertionError only if the parser raised one, which
    the parser of [electroncash] never does. *)
Theorem validate_assertion :
  (forall (I : Imports) (o : output) (max_size m : Z),
      m < 1 ->
      validate_op_return_output_and_get_data o max_size (Some m)
      = Raise AssertionError)
  /\ (forall (I : Imports) (o : output) (max_size : Z),
      max_size < 1 ->
      validate_op_return_output_and_get_data o max_size None
      = Raise AssertionError)
  /\ (forall (I : Imports) (_type : Z) (address : ScriptOutput)
             (_amount max_size : Z) (max_pushes : option Z),
      1 <= effective_max_pushes max_size max_pushes ->
      validate_op_return_output_and_get_data (_type, address, _amount)
        max_size max_pushes
      = Raise AssertionError ->
      _type = TYPE_SCRIPT /\ get_ops (script address) = Raise AssertionError)
  /\ (forall (o : output) (max_size : Z) (max_pushes : option Z),
      1 <= effective_max_pushes max_size max_pushes ->
      @validate_op_return_output_and_get_data electroncash o max_size max_pushes
      <> Raise AssertionError).
Proof.
  assert (Below : forall (I : Imports) o max_size max_pushes,
             effective_max_pushes max_size max_pushes < 1 ->
             validate_op_return_output_and_get_data o max_size max_pushes
             = Raise AssertionError).
  { intros I [[_type address] _amount] max_size max_pushes Hlt.
    unfold validate_op_return_output_and_get_data.
    replace (effective_max_pushes max_size max_pushes >=? 1) with false
      by (symmetry; rewrite Z.geb_leb; apply Z.leb_gt; lia).
    reflexivity. }
  assert (Above : forall (I : Imports) _type address _amount max_size max_pushes,
             1 <= effective_max_pushes max_size max_pushes ->
             validate_op_return_output_and_get_data (_type, address, _amount)
               max_size max_pushes
             = Raise AssertionError ->
             _type = TYPE_SCRIPT
             /\ get_ops (script address) = Raise AssertionError).
  { intros I _type address _amount max_size max_pushes Hpre Hrun.
    destruct (Z.eq_dec _type TYPE_SCRIPT) as [-> | Hkind].
    - split; [reflexivity|].
      destruct (get_ops (script address)) as [ops | e] eqn:Hops.
      + rewrite (validate_steps address _amount max_size max_pushes ops
                   Hpre Hops) in Hrun.
        destruct ops as [|marker pushes]; [discriminate|].
        repeat match type of Hrun with
               | (if ?c then _ else _) = _ => destruct c
               end; discriminate.
      + unfold validate_op_return_output_and_get_data in Hrun.
        replace (effective_max_pushes max_size max_pushes >=? 1) with true
          in Hrun by (symmetry; apply Z.geb_le; lia).
        rewrite Z.eqb_refl, Hops in Hrun. cbn [negb bind] in Hrun.
        congruence.
    - unfold validate_op_return_output_and_get_data in Hrun.
      replace (effective_max_pushes max_size max_pushes >=? 1) with true
        in Hrun by (symmetry; apply Z.geb_le; lia).
      apply Z.eqb_neq in Hkind. rewrite Hkind in Hrun. discriminate. }
  split; [|split; [|split]].
  - intros I o max_size m Hm. now apply Below.
  - intros I o max_size Hm. now apply Below.
  - exact Above.
  - intros [[_type address] _amount] max_size max_pushes Hpre Hrun.
    destruct (Above electroncash _ _ _ _ _ Hpre Hrun) as [_ Hparse].
    apply scan_ops_raises in Hparse. discriminate.
Qed.

Lemma validate_assertion_witness :
  @validate_op_return_output_and_get_data electroncash
    (0, {| script := hi_script |}, 546) 220 (Some 0)
  = Raise AssertionError
  /\ @validate_op_return_output_and_get_data electroncash
       (2, {| script := hi_script |}, 0) 220 None
     <> Raise AssertionError.
Proof.
  split.
  - apply (proj1 validate_assertion electroncash). reflexivity.
  - apply (proj2 (proj2 (proj2 validate_assertion))). cbv; discriminate.
Defined.

(** C10, as stated, fails for [max_pushes = None] when [max_size] is below 1:
    the stated precondition holds and the call ends in the assertion. *)
Lemma validate_assertion_reached_with_None :
  @validate_op_return_output_and_get_data electroncash
    (2, {| script := hi_script |}, 0) 0 None
  = Raise AssertionError.
Proof. reflexivity. Qed.

(** ** Wallet-close cleanup *)

Section CleanupRuns.

Context {World : Type}.
Variable perform : call -> World -> result unit * World.

Lemma then_ret (c : M World unit) (s : state World) :
  then_ c (ret tt) s = c s.
Proof.
  unfold then_, ret. destruct (c s) as [[[] | e] s']; reflexivity.
Qed.

Lemma run_calls_app (a b : list call) (s : state World) :
  run_calls perform (a ++ b) s
  = then_ (run_calls perform a) (run_calls perform b) s.
Proof.
  revert s. induction a as [|c a IH]; intros s; [reflexivity|].
  change ((c :: a) ++ b) with (c :: (a ++ b)). cbn [run_calls].
  unfold then_ at 1 2 3.
  destruct (invoke perform c s) as [[[] | e] s1]; [|reflexivity].
  rewrite IH. reflexivity.
Qed.

Lemma keystore_calls_run (self : HW_PluginBase) (keystore : KeyStore)
    (s : state World) :
  (if isinstance keystore (keystore_class self) then
     then_ (invoke perform (unpair_xpub (xpub keystore)))
           (_cleanup_keystore_extra perform self keystore)
   else ret tt) s
  = run_calls perform (keystore_calls self keystore) s.
Proof.
  unfold keystore_calls, _cleanup_keystore_extra.
  destruct (isinstance keystore (keystore_class self)); [|reflexivity].
  destruct (stop_is_callable keystore); cbn [run_calls]; [|reflexivity].
  unfold then_.
  destruct (invoke perform (unpair_xpub (xpub keystore)) s)
    as [[[] | e] s1]; [|reflexivity].
  destruct (invoke perform (finalization_print_error keystore) s1)
    as [[[] | e] s2]; [|reflexivity].
  destruct (invoke perform (thread_stop keystore) s2) as [[[] | e] s3];
    reflexivity.
Qed.

(** The hook makes the calls of [wallet_calls], in that order, up to the
    first that raises. *)
Lemma close_wallet_run (self : HW_PluginBase) (wallet : Abstract_Wallet)
    (s : state World) :
  close_wallet perform self wallet s
  = run_calls perform (wallet_calls self (get_keystores wallet)) s.
Proof.
  unfold close_wallet, wallet_calls.
  revert s. induction (get_keystores wallet) as [|keystore rest IH]; intros s;
    [reflexivity|].
  cbn [for_each flat_map]. rewrite run_calls_app.
  unfold then_. rewrite keystore_calls_run.
  destruct (run_calls perform (keystore_calls self keystore) s)
    as [[[] | e] s1]; [apply IH | reflexivity].
Qed.

Lemma run_calls_prefix (calls : list call) (w : World) (log : list call) :
  exists made rest,
    calls = made ++ rest
    /\ snd (snd (run_calls perform calls (w, log))) = log ++ made.
Proof.
  revert w log. induction calls as [|c calls IH]; intros w log.
  - exists [], []. split; [reflexivity|]. cbn. now rewrite app_nil_r.
  - cbn [run_calls]. unfold then_, invoke.
    destruct (perform c w) as [[[] | e] w1].
    + destruct (IH w1 (log ++ [c])) as [made [rest [-> Hlog]]].
      exists (c :: made), rest. split; [reflexivity|].
      rewrite Hlog, <- app_assoc. reflexivity.
    + exists [c], calls. split; reflexivity.
Qed.

Lemma run_calls_total (calls : list call) (s : state World) :
  (forall c w, fst (perform c w) = Return tt) ->
  fst (run_calls perform calls s) = Return tt
  /\ snd (snd (run_calls perform calls s)) = snd s ++ calls.
Proof.
  intros Htotal. revert s. induction calls as [|c calls IH]; intros [w log].
  - cbn. now rewrite app_nil_r.
  - cbn [run_calls]. unfold then_, invoke.
    specialize (Htotal c w) as Hc.
    destruct (perform c w) as [r w1]. cbn [fst] in Hc. subst r.
    destruct (IH (w1, log ++ [c])) as [Hr Hlog].
    split; [exact Hr|]. rewrite Hlog. cbn [snd]. now rewrite <- app_assoc.
Qed.

End CleanupRuns.









Example close_sample_wallet :
  close_wallet device_perform ledger_plugin sample_wallet (sample_world, [])
  = (Return tt,
     ({| paired := ["xpub-trezor"]; running := ["trezor-worker"] |},
      [unpair_xpub "xpub-ledger"; finalization_print_error ledger_keystore;
       thread_stop ledger_keystore;
       unpair_xpub "xpub-idle"; finalization_print_error idle_keystore])).
Proof. reflexivity. Qed.

(** *** The run of a list of calls, read off the collaborators *)



(** When every call returns, all of them are made and the world is the one
    they leave. *)
Lemma run_calls_returns {World : Type}
    (perform : call -> World -> result unit * World)
    (calls : list call) (w : World) (log : list call) :
  all_return perform calls w ->
  run_calls perform calls (w, log)
  = (Return tt, (world_after perform calls w, log ++ calls)).
Proof.
  revert w log. induction calls as [|c calls IH]; intros w log Hall.
  - cbn. now rewrite app_nil_r.
  - cbn [all_return] in Hall. destruct Hall as [Hc Hrest].
    cbn [run_calls]. unfold then_, invoke, world_after. cbn [fold_left].
    destruct (perform c w) as [r w1]. cbn [fst snd] in Hc, Hrest |- *. subst r.
    rewrite (IH w1 (log ++ [c]) Hrest). unfold world_after.
    now rewrite <- app_assoc.
Qed.

(** The first call that raises is the last one made: its exception is the
    outcome, and the world is the one it leaves. *)
Lemma run_calls_raises {World : Type}
    (perform : call -> World -> result unit * World)
    (pre : list call) (c : call) (post : list call) (e : exn)
    (w : World) (log : list call) :
  all_return perform pre w ->
  fst (perform c (world_after perform pre w)) = Raise e ->
  run_calls perform (pre ++ c :: post) (w, log)
  = (Raise e, (world_after perform (pre ++ [c]) w, log ++ pre ++ [c])).
Proof.
  revert w log. induction pre as [|c0 pre IH]; intros w log Hall Hc.
  - cbn [List.app run_calls]. unfold then_, invoke, world_after in *.
    cbn [fold_left] in *. destruct (perform c w) as [r w1].
    cbn [fst snd] in *. now subst r.
  - cbn [all_return] in Hall. destruct Hall as [Hc0 Hrest].
    rewrite <- !app_comm_cons. cbn [run_calls]. unfold then_ at 1, invoke at 1.
    unfold world_after in Hc |- *. cbn [fold_left] in Hc |- *.
    destruct (perform c0 w) as [r w1]. cbn [fst snd] in *. subst r.
    change (fold_left (fun w0 c1 => snd (perform c1 w0)) pre w1)
      with (world_after perform pre w1) in Hc.
    rewrite (IH w1 (log ++ [c0]) Hrest Hc).
    unfold world_after. now rewrite <- app_assoc.
Qed.

(** Every run is one of the two. *)
Lemma all_return_or_raise {World : Type}
    (perform : call -> World -> result unit * World)
    (calls : list call) (w : World) :
  all_return perform calls w
  \/ exists pre c post e,
       calls = pre ++ c :: post
       /\ all_return perform pre w
       /\ fst (perform c (world_after perform pre w)) = Raise e.
Proof.
  revert w. induction calls as [|c calls IH]; intros w; [now left|].
  destruct (fst (perform c w)) as [[] | e] eqn:Hc.
  - destruct (IH (snd (perform c w)))
      as [Hall | [pre [c' [post [e [-> [Hpre Hraise]]]]]]].
    + left. cbn [all_return]. auto.
    + right. exists (c :: pre), c', post, e.
      split; [reflexivity|]. split; [cbn [all_return]; auto | exact Hraise].
  - right. exists [], c, calls, e. repeat split. exact Hc.
Qed.



Lemma device_perform_total (c : call) (w : DeviceWorld) :
  fst (device_perform c w) = Return tt.
Proof.
  destruct c as [x | keystore | keystore]; try reflexivity.
  cbn [device_perform]. destruct (thread keystore); reflexivity.
Defined.



(** ** The optional-library guard *)

(** C8.  When the plugin's [libraries_available] flag is false, the wrapped
    operation returns [None] and leaves the world as it was, whatever the
    underlying function would do: the function is not invoked, and a counter
    of its invocations stays put.  When the flag is true the wrapped
    operation is the underlying function on the same arguments: same result,
    same effects. *)
Theorem only_hook_if_libraries_available_guard :
  forall (World Args V : Type)
         (func : HW_PluginBase -> Args -> World -> result (option V) * World)
         (self : HW_PluginBase) (args : Args) (w : World) (n : nat),
    (libraries_available self = false ->
     only_hook_if_libraries_available func self args w = (Return None, w)
     /\ only_hook_if_libraries_available (counted func) self args (n, w)
        = (Return None, (n, w)))
    /\ (libraries_available self = true ->
        only_hook_if_libraries_available func self args w = func self args w
        /\ fst (snd (only_hook_if_libraries_available (counted func)
                       self args (n, w))) = S n).
Proof.
  intros World Args V func self args w n.
  unfold only_hook_if_libraries_available.
  split; intros ->; cbn [negb]; split; try reflexivity.
  unfold counted. cbn [fst snd]. now destruct (func self args w).
Qed.

Lemma only_hook_if_libraries_available_guard_witness :
  only_hook_if_libraries_available
    (fun (self : HW_PluginBase) (args : Z) (w : list Z) =>
       (Return (Some (args + 1)), args :: w))
    {| keystore_class := "Ledger_KeyStore"; libraries_available := false;
       SUPPORTS_XEC_BIP44_DERIVATION := false |} 41 [7]
  = (Return None, [7])
  /\ only_hook_if_libraries_available
       (fun (self : HW_PluginBase) (args : Z) (w : list Z) =>
          (Return (Some (args + 1)), args :: w))
       ledger_plugin 41 [7]
     = (Return (Some 42), [41; 7]).
Proof.
  split.
  - apply (only_hook_if_libraries_available_guard (list Z) Z Z
             (fun self args w => (Return (Some (args + 1)), args :: w))
             {| keystore_class := "Ledger_KeyStore";
                libraries_available := false;
                SUPPORTS_XEC_BIP44_DERIVATION := false |} 41 [7] 0%nat).
    reflexivity.
  - apply (proj1 (proj2 (only_hook_if_libraries_available_guard (list Z) Z Z
             (fun self args w => (Return (Some (args + 1)), args :: w))
             ledger_plugin 41 [7] 0%nat) eq_refl)).
Defined.

(** ** The abstract methods *)

(** C9.  Whatever the arguments, [setup_device], [create_client] and
    [get_xpub] of the base plugin raise [NotImplementedError], which is none
    of the validator's rejections nor its assertion; a subclass that does not
    define one of them inherits that behaviour, so a concrete variant has to
    define all three. *)
Theorem base_plugin_methods_not_implemented :
  forall (Obj Client : Type) (self : HW_PluginBase),
    (forall device_info wizard purpose : Obj,
        setup_device self device_info wizard purpose
        = Raise NotImplementedError)
    /\ (forall device handler : Obj,
        create_client Client self device handler = Raise NotImplementedError)
    /\ (forall (device_id : Obj) (derivation : string) (xtype wizard : Obj),
        get_xpub self device_id derivation xtype wizard
        = Raise NotImplementedError)
    /\ (forall n : Z,
        NotImplementedError <> InvalidOutputKind n
        /\ NotImplementedError <> MissingMarker
        /\ NotImplementedError <> TooManyOrInvalidPushes n
        /\ NotImplementedError <> PayloadTooLarge n
        /\ NotImplementedError <> NonZeroAmount
        /\ NotImplementedError <> AssertionError)
    /\ (forall o : Overrides Obj Client,
        (o_setup_device o = None ->
         forall device_info wizard purpose,
           m_setup_device (subclass_methods o) self device_info wizard purpose
           = Raise NotImplementedError)
        /\ (o_create_client o = None ->
            forall device handler,
              m_create_client (subclass_methods o) self device handler
              = Raise NotImplementedError)
        /\ (o_get_xpub o = None ->
            forall device_id derivation xtype wizard,
              m_get_xpub (subclass_methods o) self device_id derivation
                xtype wizard
              = Raise NotImplementedError)).
Proof.
  intros Obj Client self.
  split; [reflexivity|]. split; [reflexivity|]. split; [reflexivity|].
  split.
  - intros n. repeat split; discriminate.
  - intros o. unfold subclass_methods. cbn.
    repeat split; intros ->; reflexivity.
Qed.

Lemma base_plugin_methods_not_implemented_witness :
  m_setup_device
    (subclass_methods
       {| o_setup_device := None;
          o_create_client := Some (fun _ _ _ => Return (@None unit));
          o_get_xpub := Some (fun _ _ _ _ _ => Return "xpub") |})
    ledger_plugin tt tt tt
  = Raise NotImplementedError.
Proof.
  apply (proj1 (proj2 (proj2 (proj2 (proj2
           (base_plugin_methods_not_implemented unit unit ledger_plugin))))
           {| o_setup_device := None;
              o_create_client := Some (fun _ _ _ => Return (@None unit));
              o_get_xpub := Some (fun _ _ _ _ _ => Return "xpub") |})).
  reflexivity.
Defined.

(** * Further properties *)

(** ** The validator: outcomes *)

Lemma string_app_empty (a : string) : (a ++ EmptyString)%string = a.
Proof. induction a as [|c a IH]; cbn; [reflexivity | now rewrite IH]. Qed.

Lemma InvalidOutputKind_message (n : Z) :
  InvalidOutputKind n = Exception ("Unexpected output type: " ++ str n)%string.
Proof.
  unfold InvalidOutputKind, format. cbn [format_from Ascii.eqb Bool.eqb].
  now rewrite string_app_empty.
Qed.

Lemma PayloadTooLarge_message (n : Z) :
  PayloadTooLarge n
  = RuntimeError
      ("OP_RETURN data size exceeds the maximum of " ++ str n ++ " bytes.")%string.
Proof. reflexivity. Qed.

Lemma existsb_no_data_false_inv (pushes : list op) :
  existsb (fun o => negb (has_data o)) pushes = false ->
  Forall (fun o => snd o <> None) pushes.
Proof.
  induction pushes as [|o pushes IH]; cbn [existsb]; intros H;
    [constructor|].
  apply orb_false_elim in H. destruct H as [Ho Hrest].
  constructor; [|now apply IH].
  unfold has_data in Ho. destruct (snd o); [discriminate | discriminate].
Qed.

(** Before the parser is called: the assertion, then the kind check. *)
Lemma validate_prelude `{Imports} (_type : Z) (address : ScriptOutput)
    (_amount max_size : Z) (max_pushes : option Z) :
  validate_op_return_output_and_get_data (_type, address, _amount)
    max_size max_pushes
  = if effective_max_pushes max_size max_pushes <? 1 then Raise AssertionError
    else if negb (_type =? TYPE_SCRIPT) then Raise (InvalidOutputKind _type)
    else match get_ops (script address) with
         | Raise e => Raise e
         | Return ops =>
             validate_op_return_output_and_get_data
               (TYPE_SCRIPT, address, _amount) max_size max_pushes
         end.
Proof.
  unfold validate_op_return_output_and_get_data.
  rewrite Z.geb_leb.
  destruct (Z.ltb_spec (effective_max_pushes max_size max_pushes) 1) as [Hlt | Hge].
  - replace (1 <=? effective_max_pushes max_size max_pushes) with false
      by (symmetry; apply Z.leb_gt; lia).
    reflexivity.
  - replace (1 <=? effective_max_pushes max_size max_pushes) with true
      by (symmetry; apply Z.leb_le; lia).
    cbn [negb].
    destruct (_type =? TYPE_SCRIPT) eqn:Hkind; cbn [negb]; [|reflexivity].
    apply Z.eqb_eq in Hkind. subst _type. rewrite Z.eqb_refl. cbn [negb].
    destruct (get_ops (script address)); reflexivity.
Qed.

Lemma validate_Return_inv `{Imports} (_type : Z) (address : ScriptOutput)
    (_amount max_size : Z) (max_pushes : option Z) (data : bytes) :
  validate_op_return_output_and_get_data (_type, address, _amount)
    max_size max_pushes = Return data ->
  1 <= effective_max_pushes max_size max_pushes
  /\ _type = TYPE_SCRIPT
  /\ _amount = 0
  /\ data = slice_from 2 (script address)
  /\ len data <= max_size
  /\ exists marker pushes,
       get_ops (script address) = Return (marker :: pushes)
       /\ fst marker = OP_RETURN
       /\ 1 <= len pushes <= effective_max_pushes max_size max_pushes
       /\ Forall (fun o => snd o <> None) pushes.
Proof.
  intros Hrun. rewrite validate_prelude in Hrun.
  destruct (Z.ltb_spec (effective_max_pushes max_size max_pushes) 1)
    as [Hlt | Hpre]; [discriminate|].
  destruct (_type =? TYPE_SCRIPT) eqn:Hkind; cbn [negb] in Hrun;
    [|discriminate].
  apply Z.eqb_eq in Hkind.
  destruct (get_ops (script address)) as [ops | e] eqn:Hops; [|discriminate].
  rewrite (validate_steps address _amount max_size max_pushes ops Hpre Hops)
    in Hrun.
  destruct ops as [|marker pushes]; [discriminate|].
  destruct (fst marker =? OP_RETURN) eqn:Hm; cbn [negb] in Hrun;
    [|discriminate].
  match type of Hrun with
  | (if ?c then _ else _) = _ => destruct c eqn:Hcount; [discriminate|]
  end.
  apply orb_false_elim in Hcount. destruct Hcount as [Hcount Hdata].
  apply orb_false_elim in Hcount. destruct Hcount as [Hlow Hhigh].
  destruct (len (slice_from 2 (script address)) >? max_size) eqn:Hsize;
    [discriminate|].
  destruct (_amount =? 0) eqn:Hamount; cbn [negb] in Hrun; [|discriminate].
  injection Hrun as <-.
  apply Z.eqb_eq in Hm, Hamount. apply Z.ltb_ge in Hlow.
  rewrite Z.gtb_ltb in Hhigh, Hsize. apply Z.ltb_ge in Hhigh, Hsize.
  repeat split; try assumption.
  exists marker, pushes. repeat split; try assumption.
  now apply existsb_no_data_false_inv.
Qed.

Lemma validate_Return_intro `{Imports} (address : ScriptOutput)
    (max_size : Z) (max_pushes : option Z) (marker : op) (pushes : list op) :
  get_ops (script address) = Return (marker :: pushes) ->
  fst marker = OP_RETURN ->
  Forall (fun o => snd o <> None) pushes ->
  1 <= len pushes <= effective_max_pushes max_size max_pushes ->
  len (slice_from 2 (script address)) <= max_size ->
  validate_op_return_output_and_get_data (TYPE_SCRIPT, address, 0)
    max_size max_pushes
  = Return (slice_from 2 (script address)).
Proof.
  intros Hops Hm Hdata Hk Hsize.
  rewrite (validate_steps address 0 max_size max_pushes _ ltac:(lia) Hops).
  repeat pass_check. reflexivity.
Qed.

(** An output that is not of script kind is rejected with an [Exception]
    that names the kind, whatever its address and amount are and whatever
    the parser would do, once the assertion on [max_pushes] holds. *)
Theorem validate_rejects_other_kinds :
  forall (I : Imports) (_type : Z) (address : ScriptOutput)
         (_amount max_size : Z) (max_pushes : option Z),
    1 <= effective_max_pushes max_size max_pushes ->
    _type <> TYPE_SCRIPT ->
    validate_op_return_output_and_get_data (_type, address, _amount)
      max_size max_pushes
    = Raise (Exception ("Unexpected output type: " ++ str _type)%string).
Proof.
  intros I _type address _amount max_size max_pushes Hpre Hkind.
  rewrite validate_prelude.
  replace (effective_max_pushes max_size max_pushes <? 1) with false
    by (symmetry; apply Z.ltb_ge; lia).
  apply Z.eqb_neq in Hkind. rewrite Hkind. cbn [negb].
  now rewrite InvalidOutputKind_message.
Qed.

Lemma validate_rejects_other_kinds_witness :
  @validate_op_return_output_and_get_data electroncash
    (-3, {| script := [x6a; x05] |}, 7) 220 None
  = Raise (Exception "Unexpected output type: -3").
Proof.
  apply (validate_rejects_other_kinds electroncash (-3)
           {| script := [x6a; x05] |} 7 220 None).
  - cbv; discriminate.
  - discriminate.
Defined.

(** An exception raised by the script parser on an output of script kind
    reaches the caller unchanged: the validator neither catches nor replaces
    it, whatever the amount. *)
Theorem validate_propagates_parser_error :
  forall (I : Imports) (address : ScriptOutput) (_amount max_size : Z)
         (max_pushes : option Z) (e : exn),
    1 <= effective_max_pushes max_size max_pushes ->
    get_ops (script address) = Raise e ->
    validate_op_return_output_and_get_data (TYPE_SCRIPT, address, _amount)
      max_size max_pushes
    = Raise e.
Proof.
  intros I address _amount max_size max_pushes e Hpre Hparse.
  rewrite validate_prelude, Hparse.
  replace (effective_max_pushes max_size max_pushes <? 1) with false
    by (symmetry; apply Z.ltb_ge; lia).
  now rewrite Z.eqb_refl.
Qed.

Lemma validate_propagates_parser_error_witness :
  @validate_op_return_output_and_get_data electroncash
    (2, {| script := [x6a; x05; x68; x69] |}, 0) 220 (Some 1)
  = Raise (ScriptError "truncated script").
Proof.
  apply (validate_propagates_parser_error electroncash
           {| script := [x6a; x05; x68; x69] |} 0 220 (Some 1)).
  - cbv; discriminate.
  - reflexivity.
Defined.

(** The validator returns bytes exactly when the assertion holds, the output
    is of script kind with amount zero, the script parses as the marker
    followed by between 1 and [max_pushes] operations that all carry data,
    and [script[2:]] has at most [max_size] bytes; the bytes returned are
    then [script[2:]].  In particular it never returns more than [max_size]
    bytes and never accepts a nonzero amount. *)
Theorem validate_accepts_iff :
  forall (I : Imports) (_type : Z) (address : ScriptOutput)
         (_amount max_size : Z) (max_pushes : option Z) (data : bytes),
    validate_op_return_output_and_get_data (_type, address, _amount)
      max_size max_pushes = Return data
    <->
    (1 <= effective_max_pushes max_size max_pushes
     /\ _type = TYPE_SCRIPT
     /\ _amount = 0
     /\ data = slice_from 2 (script address)
     /\ len data <= max_size
     /\ exists marker pushes,
          get_ops (script address) = Return (marker :: pushes)
          /\ fst marker = OP_RETURN
          /\ 1 <= len pushes <= effective_max_pushes max_size max_pushes
          /\ Forall (fun o => snd o <> None) pushes).
Proof.
  intros I _type address _amount max_size max_pushes data. split.
  - apply validate_Return_inv.
  - intros [_ [-> [-> [-> [Hsize [marker [pushes [Hops [Hm [Hk Hdata]]]]]]]]]].
    now apply (validate_Return_intro address max_size max_pushes marker pushes).
Qed.

Lemma validate_accepts_iff_witness :
  @validate_op_return_output_and_get_data electroncash
    (2, {| script := two_push_script |}, 0) 5 (Some 2)
  = Return [x61; x62; x02; x63; x64].
Proof.
  apply (proj2 (validate_accepts_iff electroncash 2
                  {| script := two_push_script |} 0 5 (Some 2)
                  [x61; x62; x02; x63; x64])).
  split; [cbv; discriminate|]. split; [reflexivity|]. split; [reflexivity|].
  split; [reflexivity|]. split; [cbv; discriminate|].
  exists (106, None), [(2, Some [x61; x62]); (2, Some [x63; x64])].
  split; [reflexivity|]. split; [reflexivity|].
  split; [cbv; split; discriminate|].
  repeat constructor; discriminate.
Defined.

(** Every call ends in one of eight ways: the assertion, the rejection of
    the kind, an exception of the parser, one of the four script rejections,
    or the return of [script[2:]].  The validator raises nothing else. *)
Theorem validate_outcomes :
  forall (I : Imports) (_type : Z) (address : ScriptOutput)
         (_amount max_size : Z) (max_pushes : option Z),
    let r := validate_op_return_output_and_get_data
               (_type, address, _amount) max_size max_pushes in
    r = Raise AssertionError
    \/ r = Raise (InvalidOutputKind _type)
    \/ (exists e, get_ops (script address) = Raise e /\ r = Raise e)
    \/ r = Raise MissingMarker
    \/ r = Raise (TooManyOrInvalidPushes
                    (effective_max_pushes max_size max_pushes))
    \/ r = Raise (PayloadTooLarge max_size)
    \/ r = Raise NonZeroAmount
    \/ r = Return (slice_from 2 (script address)).
Proof.
  intros I _type address _amount max_size max_pushes r. subst r.
  rewrite validate_prelude.
  destruct (Z.ltb_spec (effective_max_pushes max_size max_pushes) 1)
    as [Hlt | Hpre]; [now left|].
  destruct (_type =? TYPE_SCRIPT); cbn [negb]; [|now right; left].
  destruct (get_ops (script address)) as [ops | e] eqn:Hops;
    [|right; right; left; now exists e].
  rewrite (validate_steps address _amount max_size max_pushes ops Hpre Hops).
  destruct ops as [|marker pushes]; [now do 3 right; left|].
  destruct (negb (fst marker =? OP_RETURN)); [now do 3 right; left|].
  match goal with
  | |- context [if ?c then Raise (TooManyOrInvalidPushes _) else _] =>
      destruct c; [now do 4 right; left|]
  end.
  destruct (len (slice_from 2 (script address)) >? max_size);
    [now do 5 right; left|].
  destruct (negb (_amount =? 0)); [now do 6 right; left | now do 7 right].
Qed.

(** ** The validator: limits and amounts *)

(** Raising the limits never turns an accepted output into a rejected one:
    what is returned under [max_size] and [max_pushes] is returned under any
    larger [max_size] and any larger effective [max_pushes]. *)
Theorem validate_monotone_in_limits :
  forall (I : Imports) (o : output) (max_size max_size' : Z)
         (max_pushes max_pushes' : option Z) (data : bytes),
    validate_op_return_output_and_get_data o max_size max_pushes
    = Return data ->
    max_size <= max_size' ->
    effective_max_pushes max_size max_pushes
    <= effective_max_pushes max_size' max_pushes' ->
    validate_op_return_output_and_get_data o max_size' max_pushes'
    = Return data.
Proof.
  intros I [[_type address] _amount] max_size max_size' max_pushes max_pushes'
         data Hrun Hsize Hpushes.
  apply validate_Return_inv in Hrun.
  destruct Hrun as [Hpre [-> [-> [-> [Hlen [marker [pushes
                     [Hops [Hm [Hk Hdata]]]]]]]]]].
  apply (validate_Return_intro address max_size' max_pushes' marker pushes);
    try assumption; lia.
Qed.

Lemma validate_monotone_in_limits_witness :
  @validate_op_return_output_and_get_data electroncash
    (2, {| script := two_push_script |}, 0) 220 None
  = Return [x61; x62; x02; x63; x64].
Proof.
  apply (validate_monotone_in_limits electroncash
           (2, {| script := two_push_script |}, 0) 5 220 (Some 2) None).
  - reflexivity.
  - cbv; discriminate.
  - cbv; discriminate.
Defined.

(** The amount is looked at last.  A call that ends in anything but the
    amount rejection or a return ends the same way whatever the amount is,
    and an output accepted with amount zero is rejected with NonZeroAmount
    for every other amount. *)
Theorem validate_checks_amount_last :
  forall (I : Imports) (_type : Z) (address : ScriptOutput)
         (_amount _amount' max_size : Z) (max_pushes : option Z),
    (forall r,
        validate_op_return_output_and_get_data (_type, address, _amount)
          max_size max_pushes = r ->
        r <> Raise NonZeroAmount ->
        (forall data, r <> Return data) ->
        validate_op_return_output_and_get_data (_type, address, _amount')
          max_size max_pushes = r)
    /\ (forall data,
        validate_op_return_output_and_get_data (_type, address, _amount)
          max_size max_pushes = Return data ->
        _amount' <> 0 ->
        validate_op_return_output_and_get_data (_type, address, _amount')
          max_size max_pushes = Raise NonZeroAmount).
Proof.
  intros I _type address _amount _amount' max_size max_pushes. split.
  - intros r Hrun Hnot Hret. rewrite validate_prelude in Hrun |- *.
    destruct (Z.ltb_spec (effective_max_pushes max_size max_pushes) 1)
      as [Hlt | Hpre]; [exact Hrun|].
    destruct (negb (_type =? TYPE_SCRIPT)); [exact Hrun|].
    destruct (get_ops (script address)) as [ops | e] eqn:Hops; [|exact Hrun].
    rewrite (validate_steps address _amount max_size max_pushes ops Hpre Hops)
      in Hrun.
    rewrite (validate_steps address _amount' max_size max_pushes ops Hpre Hops).
    destruct ops as [|marker pushes]; [exact Hrun|].
    destruct (negb (fst marker =? OP_RETURN)); [exact Hrun|].
    match type of Hrun with
    | (if ?c then _ else _) = _ => destruct c; [exact Hrun|]
    end.
    destruct (len (slice_from 2 (script address)) >? max_size); [exact Hrun|].
    exfalso. destruct (negb (_amount =? 0)).
    + now apply Hnot.
    + now apply (Hret (slice_from 2 (script address))).
  - intros data Hrun Hamount.
    apply validate_Return_inv in Hrun.
    destruct Hrun as [Hpre [-> [_ [-> [Hlen [marker [pushes
                       [Hops [Hm [Hk Hdata]]]]]]]]]].
    rewrite (validate_steps address _amount' max_size max_pushes _ Hpre Hops).
    repeat pass_check.
    apply Z.eqb_neq in Hamount. now rewrite Hamount.
Qed.

Lemma validate_checks_amount_last_witness :
  @validate_op_return_output_and_get_data electroncash
    (2, {| script := two_push_script |}, 546) 220 (Some 1)
  = Raise (TooManyOrInvalidPushes 1)
  /\ @validate_op_return_output_and_get_data electroncash
       (2, {| script := hi_script |}, 546) 220 (Some 1)
     = Raise NonZeroAmount.
Proof.
  split.
  - apply (proj1 (validate_checks_amount_last electroncash 2
                    {| script := two_push_script |} 0 546 220 (Some 1))).
    + reflexivity.
    + discriminate.
    + intros data. discriminate.
  - apply (proj2 (validate_checks_amount_last electroncash 2
                    {| script := hi_script |} 0 546 220 (Some 1))
             [x68; x69]).
    + reflexivity.
    + discriminate.
Defined.

(** The validator on [OP_RETURN push_1 ... push_k] with directly encoded
    pushes: every operation carries data, so only the count, the size and
    the amount decide. *)
Lemma validate_op_return_script (pushes : list bytes) (_amount max_size : Z)
    (max_pushes : option Z) :
  Forall (fun data => (length data <= 75)%nat) pushes ->
  1 <= effective_max_pushes max_size max_pushes ->
  @validate_op_return_output_and_get_data electroncash
    (2, {| script := op_return_script pushes |}, _amount) max_size max_pushes
  = if (len pushes <? 1)
       || (len pushes >? effective_max_pushes max_size max_pushes)
    then Raise (TooManyOrInvalidPushes
                  (effective_max_pushes max_size max_pushes))
    else if len (tl (concat (map encode_push pushes))) >? max_size
    then Raise (PayloadTooLarge max_size)
    else if negb (_amount =? 0) then Raise NonZeroAmount
    else Return (tl (concat (map encode_push pushes))).
Proof.
  intros Hall Hpre.
  pose proof (@validate_steps electroncash
                {| script := op_return_script pushes |} _amount max_size
                max_pushes _ Hpre (get_ops_op_return_script pushes Hall)) as E.
  etransitivity; [exact E|]. clear E.
  replace (negb (fst (OpCodes.OP_RETURN, @None bytes) =? @OP_RETURN electroncash))
    with false by reflexivity.
  rewrite len_map.
  replace (existsb (fun o => negb (has_data o))
             (map (fun data => (len data, Some data)) pushes)) with false.
  2:{ symmetry. apply existsb_no_data_false. apply Forall_forall.
      intros o Ho. apply in_map_iff in Ho. destruct Ho as [d [<- _]].
      discriminate. }
  rewrite orb_false_r.
  replace (slice_from 2 (script {| script := op_return_script pushes |}))
    with (tl (concat (map encode_push pushes)))
    by (unfold slice_from, op_return_script; cbn [script skipn];
        now destruct (concat (map encode_push pushes))).
  reflexivity.
Qed.

Lemma encode_empty_pushes (n : nat) :
  concat (map encode_push (repeat [] n)) = repeat x00 n.
Proof. induction n as [|n IH]; [reflexivity|]. cbn. now rewrite IH. Qed.

Lemma encoded_nonempty_pushes_length (pushes : list bytes) :
  Forall (fun data => (1 <= length data <= 75)%nat) pushes ->
  (2 * length pushes <= length (concat (map encode_push pushes)))%nat.
Proof.
  induction 1 as [|data pushes Hdata _ IH]; [reflexivity|].
  destruct (encode_push_shape data ltac:(lia)) as [b [E _]].
  cbn [map concat]. rewrite E, length_app. cbn [length]. lia.
Qed.

(** [max_pushes = None] is not "no limit".  The script of the marker
    followed by [k + 1] empty pushes has [k] bytes after its first two, so
    with [max_size = k] it is accepted under [max_pushes = k + 1] but
    rejected for its number of pushes under [max_pushes = None], which
    stands for [max_size]. *)
Theorem validate_None_still_limits_pushes :
  forall k : nat,
    (1 <= k)%nat ->
    @validate_op_return_output_and_get_data electroncash
      (2, {| script := op_return_script (repeat [] (S k)) |}, 0)
      (Z.of_nat k) (Some (Z.of_nat (S k)))
    = Return (repeat x00 k)
    /\ @validate_op_return_output_and_get_data electroncash
         (2, {| script := op_return_script (repeat [] (S k)) |}, 0)
         (Z.of_nat k) None
       = Raise (TooManyOrInvalidPushes (Z.of_nat k)).
Proof.
  intros k Hk.
  assert (Hall : Forall (fun data : bytes => (length data <= 75)%nat)
                   (repeat [] (S k))).
  { apply Forall_forall. intros d Hd. apply repeat_spec in Hd. subst d.
    cbn [length]. lia. }
  assert (Hlen : @len bytes (@repeat (list byte) (@nil byte) (S k))
                 = Z.of_nat (S k))
    by (unfold len; now rewrite repeat_length).
  assert (Hpay : tl (concat (map encode_push (repeat [] (S k)))) = repeat x00 k)
    by (now rewrite encode_empty_pushes).
  split.
  - rewrite validate_op_return_script by (cbn [effective_max_pushes]; auto; lia).
    rewrite Hpay, Hlen. cbn [effective_max_pushes].
    replace (len (repeat x00 k)) with (Z.of_nat k)
      by (unfold len; now rewrite repeat_length).
    repeat pass_check. reflexivity.
  - rewrite validate_op_return_script by (cbn [effective_max_pushes]; auto; lia).
    rewrite Hlen. cbn [effective_max_pushes].
    replace (Z.of_nat (S k) >? Z.of_nat k) with true
      by (symmetry; rewrite Z.gtb_ltb; apply Z.ltb_lt; lia).
    now rewrite orb_true_r.
Qed.

Lemma validate_None_still_limits_pushes_witness :
  @validate_op_return_output_and_get_data electroncash
    (2, {| script := [x6a; x00; x00; x00] |}, 0) 2 (Some 3)
  = Return [x00; x00]
  /\ @validate_op_return_output_and_get_data electroncash
       (2, {| script := [x6a; x00; x00; x00] |}, 0) 2 None
     = Raise (RuntimeError "OP_RETURN is limited to 2 data pushes.").
Proof.
  apply (validate_None_still_limits_pushes 2). repeat constructor.
Defined.

(** When every push holds at least one byte, [max_pushes = None] does omit
    the count check: the script of the marker followed by such pushes is
    accepted as soon as its bytes after the first two fit in [max_size]. *)
Theorem validate_None_accepts_nonempty_pushes :
  forall (pushes : list bytes) (max_size : Z),
    pushes <> [] ->
    Forall (fun data => (1 <= length data <= 75)%nat) pushes ->
    len (tl (concat (map encode_push pushes))) <= max_size ->
    @validate_op_return_output_and_get_data electroncash
      (2, {| script := op_return_script pushes |}, 0) max_size None
    = Return (tl (concat (map encode_push pushes))).
Proof.
  intros pushes max_size Hne Hall Hsize.
  pose proof (encoded_nonempty_pushes_length pushes Hall) as Hlen.
  assert (Hk : (1 <= length pushes)%nat)
    by (destruct pushes; [congruence | cbn [length]; lia]).
  assert (Hcount : len pushes <= len (tl (concat (map encode_push pushes)))).
  { unfold len. destruct (concat (map encode_push pushes)) as [|b c];
      cbn [length tl] in *; lia. }
  assert (Hshort : Forall (fun data : bytes => (length data <= 75)%nat) pushes).
  { apply Forall_forall. intros d Hd.
    rewrite Forall_forall in Hall. specialize (Hall d Hd). lia. }
  assert (Hone : 1 <= len pushes) by (unfold len; lia).
  rewrite validate_op_return_script
    by (cbn [effective_max_pushes]; auto; lia).
  cbn [effective_max_pushes]. repeat pass_check. reflexivity.
Qed.

Lemma validate_None_accepts_nonempty_pushes_witness :
  @validate_op_return_output_and_get_data electroncash
    (2, {| script := two_push_script |}, 0) 5 None
  = Return [x61; x62; x02; x63; x64].
Proof.
  apply (validate_None_accepts_nonempty_pushes [[x61; x62]; [x63; x64]] 5).
  - discriminate.
  - repeat constructor.
  - cbv; discriminate.
Defined.

(** The rejections can be told apart: the script rejections are all
    [RuntimeError]s, and their messages differ from one another whatever
    limits they mention; the kind rejection and the assertion differ from
    them by class. *)
Theorem rejections_are_distinct :
  forall t n m : Z,
    MissingMarker <> NonZeroAmount
    /\ MissingMarker <> TooManyOrInvalidPushes n
    /\ MissingMarker <> PayloadTooLarge m
    /\ TooManyOrInvalidPushes n <> PayloadTooLarge m
    /\ TooManyOrInvalidPushes n <> NonZeroAmount
    /\ PayloadTooLarge m <> NonZeroAmount
    /\ (forall e,
        In e [MissingMarker; TooManyOrInvalidPushes n; PayloadTooLarge m;
              NonZeroAmount] ->
        e <> InvalidOutputKind t /\ e <> AssertionError).
Proof.
  intros t n m.
  rewrite TooManyOrInvalidPushes_message, PayloadTooLarge_message.
  unfold MissingMarker, NonZeroAmount, InvalidOutputKind, gettext,
    push_limit_singular, push_limit_plural.
  repeat split; try (destruct (n =? 1)); try discriminate.
  all: destruct H as [<- | [<- | [<- | [<- | []]]]];
    try (destruct (n =? 1)); discriminate.
Qed.

(** ** Wallet-close cleanup: failures, composition, repetition *)

(** An exception raised by a collaborator ends the cleanup at once and
    reaches the caller unchanged: when the calls before [c] return and [c]
    raises [e], the hook raises [e], [c] is the last call made, the world is
    the one [c] leaves, and the keystores that follow are neither unpaired
    nor stopped.  When every call returns, the hook returns after making all
    of them.  One of the two always happens. *)
Theorem close_wallet_stops_at_first_failure :
  forall (World : Type) (perform : call -> World -> result unit * World)
         (self : HW_PluginBase) (wallet : Abstract_Wallet)
         (w : World) (log : list call),
    let calls := wallet_calls self (get_keystores wallet) in
    (forall pre c post e,
        calls = pre ++ c :: post ->
        all_return perform pre w ->
        fst (perform c (world_after perform pre w)) = Raise e ->
        close_wallet perform self wallet (w, log)
        = (Raise e, (world_after perform (pre ++ [c]) w, log ++ pre ++ [c])))
    /\ (all_return perform calls w ->
        close_wallet perform self wallet (w, log)
        = (Return tt, (world_after perform calls w, log ++ calls)))
    /\ (all_return perform calls w
        \/ exists pre c post e,
             calls = pre ++ c :: post
             /\ all_return perform pre w
             /\ fst (perform c (world_after perform pre w)) = Raise e).
Proof.
  intros World perform self wallet w log calls. subst calls.
  split; [|split].
  - intros pre c post e Hsplit Hpre Hraise.
    rewrite close_wallet_run, Hsplit. now apply run_calls_raises.
  - intros Hall. rewrite close_wallet_run. now apply run_calls_returns.
  - apply all_return_or_raise.
Qed.

Lemma close_wallet_stops_at_first_failure_witness :
  close_wallet strict_perform ledger_plugin sample_wallet
    ({| paired := ["xpub-ledger"; "xpub-idle"]; running := [] |}, [])
  = (Raise (ExternalError "worker already stopped"),
     ({| paired := ["xpub-idle"]; running := [] |},
      [unpair_xpub "xpub-ledger"; finalization_print_error ledger_keystore;
       thread_stop ledger_keystore])).
Proof.
  apply (proj1 (close_wallet_stops_at_first_failure DeviceWorld strict_perform
                  ledger_plugin sample_wallet
                  {| paired := ["xpub-ledger"; "xpub-idle"]; running := [] |}
                  [])
           [unpair_xpub "xpub-ledger"; finalization_print_error ledger_keystore]
           (thread_stop ledger_keystore)
           [unpair_xpub "xpub-idle"; finalization_print_error idle_keystore]
           (ExternalError "worker already stopped")).
  - reflexivity.
  - cbn. repeat split.
  - reflexivity.
Defined.

(** Cleaning up a wallet whose keystores are [l1] followed by [l2] is
    cleaning up [l1] and then, unless that raised, [l2]. *)
Theorem close_wallet_app :
  forall (World : Type) (perform : call -> World -> result unit * World)
         (self : HW_PluginBase) (l1 l2 : list KeyStore) (s : state World),
    close_wallet perform self {| get_keystores := l1 ++ l2 |} s
    = then_ (close_wallet perform self {| get_keystores := l1 |})
            (close_wallet perform self {| get_keystores := l2 |}) s.
Proof.
  intros World perform self l1 l2 s.
  rewrite close_wallet_run. cbn [get_keystores].
  unfold wallet_calls. rewrite flat_map_app, run_calls_app.
  unfold then_. rewrite (close_wallet_run perform self {| get_keystores := l1 |}).
  cbn [get_keystores]. unfold wallet_calls.
  destruct (run_calls perform (flat_map (keystore_calls self) l1) s)
    as [[[] | e] s1]; [|reflexivity].
  now rewrite close_wallet_run.
Qed.

(** The hook keeps no record of what it has cleaned up: when the
    collaborators' calls do not raise, a second invocation makes the same
    calls again, in the same order, so every xpub is unpaired again and
    every stoppable worker is asked to stop again. *)
Theorem close_wallet_twice_repeats_calls :
  forall (World : Type) (perform : call -> World -> result unit * World)
         (self : HW_PluginBase) (wallet : Abstract_Wallet)
         (w : World) (log : list call),
    (forall c w0, fst (perform c w0) = Return tt) ->
    snd (snd (close_wallet perform self wallet
                (snd (close_wallet perform self wallet (w, log)))))
    = log ++ wallet_calls self (get_keystores wallet)
          ++ wallet_calls self (get_keystores wallet).
Proof.
  intros World perform self wallet w log Htotal.
  rewrite !close_wallet_run.
  destruct (run_calls_total perform (wallet_calls self (get_keystores wallet))
              (w, log) Htotal) as [_ Hfirst].
  destruct (run_calls_total perform (wallet_calls self (get_keystores wallet))
              (snd (run_calls perform
                      (wallet_calls self (get_keystores wallet)) (w, log)))
              Htotal) as [_ Hsecond].
  rewrite Hsecond, Hfirst. cbn [snd]. now rewrite app_assoc.
Qed.

Lemma close_wallet_twice_repeats_calls_witness :
  snd (snd (close_wallet device_perform ledger_plugin sample_wallet
              (snd (close_wallet device_perform ledger_plugin sample_wallet
                      (sample_world, [])))))
  = [] ++ wallet_calls ledger_plugin (get_keystores sample_wallet)
       ++ wallet_calls ledger_plugin (get_keystores sample_wallet).
Proof.
  apply (close_wallet_twice_repeats_calls DeviceWorld device_perform
           ledger_plugin sample_wallet sample_world []).
  exact device_perform_total.
Defined.

Lemma wallet_calls_counts (self : HW_PluginBase) (keystores : list KeyStore) :
  length (filter is_unpair (wallet_calls self keystores))
  = length (filter (fun k => isinstance k (keystore_class self)) keystores)
  /\ length (filter is_finalization (wallet_calls self keystores))
     = length (filter (fun k => isinstance k (keystore_class self)) keystores)
  /\ length (filter is_stop (wallet_calls self keystores))
     = length (filter (fun k => isinstance k (keystore_class self)
                                && stop_is_callable k) keystores).
Proof.
  unfold wallet_calls. induction keystores as [|k rest [IH1 [IH2 IH3]]];
    [repeat split|].
  cbn [flat_map filter]. rewrite !filter_app, !length_app, IH1, IH2, IH3.
  unfold keystore_calls.
  destruct (isinstance k (keystore_class self));
    destruct (stop_is_callable k); cbn; repeat split; reflexivity.
Qed.

Lemma wallet_calls_by_keystore (self : HW_PluginBase)
    (keystores : list KeyStore) :
  wallet_calls self keystores
  = flat_map
      (fun k => unpair_xpub (xpub k) :: finalization_print_error k
                :: (if stop_is_callable k then [thread_stop k] else []))
      (filter (fun k => isinstance k (keystore_class self)) keystores).
Proof.
  unfold wallet_calls. induction keystores as [|k rest IH]; [reflexivity|].
  cbn [flat_map filter]. unfold keystore_calls at 1.
  destruct (isinstance k (keystore_class self)); cbn [flat_map];
    now rewrite IH.
Qed.

Lemma unpair_count_by_xpub (x : string) (matching : list KeyStore) :
  length
    (filter (is_unpair_of x)
       (flat_map
          (fun k => unpair_xpub (xpub k) :: finalization_print_error k
                    :: (if stop_is_callable k then [thread_stop k] else []))
          matching))
  = length (filter (fun k => String.eqb x (xpub k)) matching).
Proof.
  induction matching as [|k rest IH]; [reflexivity|].
  cbn [flat_map filter]. rewrite filter_app, length_app, IH.
  cbn [filter is_unpair_of].
  destruct (String.eqb x (xpub k)); destruct (stop_is_callable k);
    reflexivity.
Qed.

(** When the collaborators' calls do not raise, the calls of one invocation
    are exactly, for each keystore of the plugin's keystore class in wallet
    order: the unpairing of that keystore's xpub, the registration of that
    keystore's finalizer and, when its thread has a callable [stop], the
    stop of that keystore's worker.  So each xpub is unpaired as many times
    as matching keystores carry it, and there is one unpairing and one
    finalizer per matching keystore and one stop per matching keystore that
    can be stopped. *)
Theorem close_wallet_call_counts :
  forall (World : Type) (perform : call -> World -> result unit * World)
         (self : HW_PluginBase) (wallet : Abstract_Wallet) (w : World),
    (forall c w0, fst (perform c w0) = Return tt) ->
    let made := snd (snd (close_wallet perform self wallet (w, []))) in
    let matching :=
      filter (fun k => isinstance k (keystore_class self))
             (get_keystores wallet) in
    made
    = flat_map
        (fun k => unpair_xpub (xpub k) :: finalization_print_error k
                  :: (if stop_is_callable k then [thread_stop k] else []))
        matching
    /\ (forall x,
        length (filter (is_unpair_of x) made)
        = length (filter (fun k => String.eqb x (xpub k)) matching))
    /\ length (filter is_unpair made) = length matching
    /\ length (filter is_finalization made) = length matching
    /\ length (filter is_stop made)
       = length (filter stop_is_callable matching).
Proof.
  intros World perform self wallet w Htotal made matching.
  subst made matching. rewrite close_wallet_run.
  destruct (run_calls_total perform (wallet_calls self (get_keystores wallet))
              (w, []) Htotal) as [_ Hlog].
  rewrite Hlog. cbn [snd]. rewrite app_nil_l.
  destruct (wallet_calls_counts self (get_keystores wallet)) as [H1 [H2 H3]].
  split; [apply wallet_calls_by_keystore|].
  split.
  { intros x. rewrite wallet_calls_by_keystore. apply unpair_count_by_xpub. }
  split; [exact H1|]. split; [exact H2|].
  rewrite H3. clear. induction (get_keystores wallet) as [|k rest IH];
    [reflexivity|].
  cbn [filter]. destruct (isinstance k (keystore_class self)); cbn [andb filter];
    [destruct (stop_is_callable k); cbn [length]; now rewrite IH | exact IH].
Qed.

Lemma close_wallet_call_counts_witness :
  snd (snd (close_wallet device_perform ledger_plugin sample_wallet
              (sample_world, [])))
  = [unpair_xpub "xpub-ledger"; finalization_print_error ledger_keystore;
     thread_stop ledger_keystore;
     unpair_xpub "xpub-idle"; finalization_print_error idle_keystore]
  /\ length (filter (is_unpair_of "xpub-idle")
               (snd (snd (close_wallet device_perform ledger_plugin
                            sample_wallet (sample_world, []))))) = 1%nat.
Proof.
  destruct (close_wallet_call_counts DeviceWorld device_perform ledger_plugin
              sample_wallet sample_world device_perform_total)
    as [Hmade [Hxpub _]].
  split; [exact Hmade | exact (Hxpub "xpub-idle")].
Defined.

(** ** The optional-library guard: composition *)

(** Guarding a guarded operation changes nothing: the decorator is
    idempotent, for either value of the flag and whatever the function
    does. *)
Theorem only_hook_if_libraries_available_idempotent :
  forall (World Args V : Type)
         (func : HW_PluginBase -> Args -> World -> result (option V) * World)
         (self : HW_PluginBase) (args : Args) (w : World),
    only_hook_if_libraries_available
      (only_hook_if_libraries_available func) self args w
    = only_hook_if_libraries_available func self args w.
Proof.
  intros World Args V func self args w.
  unfold only_hook_if_libraries_available.
  now destruct (libraries_available self).
Qed.

(** ** Showing an address *)

(** [show_address_helper] returns [True] exactly when the address belongs to
    the wallet and the class of the keystore (the one passed, or the wallet's
    own when [None] is passed) is the plugin's keystore class itself; when
    the address belongs to the wallet no error is shown, whatever the
    answer. *)
Theorem show_address_helper_true_iff :
  forall (World : Type)
         (show_error : KeyStore -> string -> World -> result unit * World)
         (self : HW_PluginBase) (wallet : Wallet_Queries) (address : string)
         (keystore : option KeyStore) (w : World),
    let k := match keystore with
             | None => get_keystore wallet
             | Some k => k
             end in
    let run := show_address_helper show_error self wallet address keystore w in
    (fst run = Return true
     <-> is_mine wallet address = true
         /\ hd_error (mro k) = Some (keystore_class self))
    /\ (is_mine wallet address = true -> snd run = w).
Proof.
  intros World show_error self wallet address keystore w k run.
  subst run. unfold show_address_helper. fold k.
  destruct (is_mine wallet address); cbn [negb].
  - unfold type_differs. split; [|intros _].
    + destruct (hd_error (mro k)) as [c|].
      * destruct (String.eqb_spec c (keystore_class self)) as [-> | Hne];
          cbn [negb fst]; split; try discriminate; try tauto.
        intros [_ [= E]]. contradiction.
      * cbn [fst]. split; [discriminate | intros [_ [=]]].
    + destruct (hd_error (mro k)) as [c|]; [|reflexivity].
      now destruct (negb (c =? keystore_class self)%string).
  - split; [|discriminate].
    destruct (show_error k (gettext "Address not in wallet.") w)
      as [[[] | e] w']; cbn [fst]; split; try discriminate;
      intros [[=] _].
Qed.

Lemma show_address_helper_true_iff_witness :
  fst (show_address_helper recording_show_error ledger_plugin
         {| get_keystore := ledger_keystore; is_mine := fun _ => true |}
         "ecash:qq" None [])
  = Return true.
Proof.
  apply (proj1 (show_address_helper_true_iff (list (string * string))
                  recording_show_error ledger_plugin
                  {| get_keystore := ledger_keystore; is_mine := fun _ => true |}
                  "ecash:qq" None [])).
  split; reflexivity.
Defined.

(** When the address does not belong to the wallet, the error "Address not
    in wallet." is shown once on the keystore, before its class is looked
    at; the helper then returns [False], or lets through the exception that
    showing the error raised.  It never returns [True]. *)
Theorem show_address_helper_not_mine :
  forall (World : Type)
         (show_error : KeyStore -> string -> World -> result unit * World)
         (self : HW_PluginBase) (wallet : Wallet_Queries) (address : string)
         (keystore : option KeyStore) (w : World),
    is_mine wallet address = false ->
    let k := match keystore with
             | None => get_keystore wallet
             | Some k => k
             end in
    let shown := show_error k "Address not in wallet." w in
    let run := show_address_helper show_error self wallet address keystore w in
    snd run = snd shown
    /\ fst run <> Return true
    /\ (fst shown = Return tt -> fst run = Return false)
    /\ (forall e, fst shown = Raise e -> fst run = Raise e).
Proof.
  intros World show_error self wallet address keystore w Hmine k shown run.
  subst run shown. unfold show_address_helper. fold k.
  rewrite Hmine. cbn [negb]. unfold gettext.
  destruct (show_error k "Address not in wallet." w) as [[[] | e] w'];
    cbn [fst snd].
  - split; [reflexivity|]. split; [discriminate|].
    split; [reflexivity | discriminate].
  - split; [reflexivity|]. split; [discriminate|].
    split; [discriminate|]. intros e' [= <-]. reflexivity.
Qed.

Lemma show_address_helper_not_mine_witness :
  show_address_helper recording_show_error ledger_plugin
    {| get_keystore := ledger_keystore; is_mine := fun _ => false |}
    "ecash:qq" None []
  = (Return false, [("xpub-ledger", "Address not in wallet.")]).
Proof.
  pose proof (show_address_helper_not_mine (list (string * string))
                recording_show_error ledger_plugin
                {| get_keystore := ledger_keystore; is_mine := fun _ => false |}
                "ecash:qq" None [] eq_refl) as [Hworld [_ [Hret _]]].
  specialize (Hret eq_refl).
  destruct (show_address_helper recording_show_error ledger_plugin
              {| get_keystore := ledger_keystore; is_mine := fun _ => false |}
              "ecash:qq" None []) as [r w'].
  cbn [fst snd] in Hworld, Hret. now rewrite Hworld, Hret.
Defined.

(** The helper compares the class of the keystore itself, the cleanup uses
    [isinstance]: a keystore the helper accepts is one the cleanup handles,
    but a keystore of a proper subclass of the plugin's keystore class is
    handled by the cleanup and refused by the helper, even for an address of
    the wallet. *)
Theorem show_address_helper_exact_class :
  forall (World : Type)
         (show_error : KeyStore -> string -> World -> result unit * World)
         (self : HW_PluginBase) (wallet : Wallet_Queries) (address : string)
         (k : KeyStore) (w : World),
    (fst (show_address_helper show_error self wallet address (Some k) w)
     = Return true ->
     isinstance k (keystore_class self) = true)
    /\ (forall sub bases,
        mro k = sub :: bases ->
        sub <> keystore_class self ->
        In (keystore_class self) bases ->
        is_mine wallet address = true ->
        isinstance k (keystore_class self) = true
        /\ show_address_helper show_error self wallet address (Some k) w
           = (Return false, w)).
Proof.
  intros World show_error self wallet address k w. split.
  - unfold show_address_helper, type_differs, isinstance.
    destruct (is_mine wallet address); cbn [negb].
    + destruct (mro k) as [|c rest]; cbn [hd_error]; [discriminate|].
      destruct (String.eqb_spec c (keystore_class self)) as [-> | Hne];
        cbn [negb fst]; [|discriminate].
      intros _. cbn [existsb]. now rewrite String.eqb_refl.
    + destruct (show_error k (gettext "Address not in wallet.") w)
        as [[[] | e] w']; discriminate.
  - intros sub bases Hmro Hsub Hin Hmine. split.
    + unfold isinstance. rewrite Hmro. apply existsb_exists.
      exists (keystore_class self). split; [now right | apply String.eqb_refl].
    + unfold show_address_helper, type_differs.
      rewrite Hmine, Hmro. cbn [negb hd_error].
      apply String.eqb_neq in Hsub. now rewrite Hsub.
Qed.

Lemma show_address_helper_exact_class_witness :
  isinstance
    {| mro := ["Ledger_Nano_KeyStore"; "Ledger_KeyStore"; "Hardware_KeyStore"];
       xpub := "xpub-nano"; thread := None |}
    (keystore_class ledger_plugin) = true
  /\ show_address_helper recording_show_error ledger_plugin
       {| get_keystore := ledger_keystore; is_mine := fun _ => true |}
       "ecash:qq"
       (Some {| mro := ["Ledger_Nano_KeyStore"; "Ledger_KeyStore";
                        "Hardware_KeyStore"];
                xpub := "xpub-nano"; thread := None |}) []
     = (Return false, []).
Proof.
  apply (proj2 (show_address_helper_exact_class (list (string * string))
                  recording_show_error ledger_plugin
                  {| get_keystore := ledger_keystore; is_mine := fun _ => true |}
                  "ecash:qq"
                  {| mro := ["Ledger_Nano_KeyStore"; "Ledger_KeyStore";
                             "Hardware_KeyStore"];
                     xpub := "xpub-nano"; thread := None |} [])
           "Ledger_Nano_KeyStore" ["Ledger_KeyStore"; "Hardware_KeyStore"]).
  - reflexivity.
  - discriminate.
  - left. reflexivity.
  - reflexivity.
Defined.

(** ** Outputs on the change branch *)

Section ChangeBranchProperties.

Variables Addr Info : Type.
Variable addr_eqb : Addr -> Addr -> bool.
Variable change_flag : Info -> Z.

Lemma any_output_on_change_branch_iff (d : list (Addr * Info))
    (outs : list (Z * Addr * Z)) :
  any_output_on_change_branch addr_eqb change_flag d outs = true
  <-> exists o info,
        In o outs
        /\ dict_get addr_eqb d (snd (fst o)) = Some info
        /\ change_flag info = 1.
Proof.
  induction outs as [|o outs IH]; cbn [any_output_on_change_branch].
  - split; [discriminate | intros [o [info [[] _]]]].
  - destruct (dict_get addr_eqb d (snd (fst o))) as [info|] eqn:Hget.
    + destruct (Z.eqb_spec (change_flag info) 1) as [Hflag | Hflag].
      * split; [intros _ | reflexivity].
        exists o, info. repeat split; [now left | exact Hget | exact Hflag].
      * rewrite IH. split.
        -- intros [o' [info' [Hin H]]]. exists o', info'.
           split; [now right | exact H].
        -- intros [o' [info' [[<- | Hin] [Hget' Hflag']]]].
           ++ rewrite Hget in Hget'. injection Hget' as <-. contradiction.
           ++ exists o', info'. auto.
    + rewrite IH. split.
      * intros [o' [info' [Hin H]]]. exists o', info'.
        split; [now right | exact H].
      * intros [o' [info' [[<- | Hin] [Hget' Hflag']]]].
        -- rewrite Hget in Hget'. discriminate.
        -- exists o', info'. auto.
Qed.

Lemma any_output_on_change_branch_app (d : list (Addr * Info))
    (outs1 outs2 : list (Z * Addr * Z)) :
  any_output_on_change_branch addr_eqb change_flag d (outs1 ++ outs2)
  = any_output_on_change_branch addr_eqb change_flag d outs1
    || any_output_on_change_branch addr_eqb change_flag d outs2.
Proof.
  induction outs1 as [|o outs1 IH]; [reflexivity|].
  rewrite <- app_comm_cons. cbn [any_output_on_change_branch].
  destruct (dict_get addr_eqb d (snd (fst o))) as [info|]; [|exact IH].
  destruct (change_flag info =? 1); [reflexivity | exact IH].
Qed.

(** The function answers [True] exactly when the transaction has output
    information and some output's address is a key of it whose entry has
    [info[0][0] == 1]; a transaction without output information ([None] or
    empty), without outputs, or whose outputs are all unknown or on another
    branch gives [False]. *)
Theorem is_any_tx_output_on_change_branch_iff :
  forall tx : Transaction Addr Info,
    is_any_tx_output_on_change_branch addr_eqb change_flag tx = true
    <-> exists d o info,
          output_info tx = Some d
          /\ In o (outputs tx)
          /\ dict_get addr_eqb d (snd (fst o)) = Some info
          /\ change_flag info = 1.
Proof.
  intros tx. unfold is_any_tx_output_on_change_branch, no_output_info.
  destruct (output_info tx) as [[|item d]|].
  - split; [discriminate|].
    intros [d [o [info [[= <-] [_ [Hget _]]]]]]. discriminate.
  - rewrite any_output_on_change_branch_iff. split.
    + intros [o [info H]]. exists (item :: d), o, info. auto.
    + intros [d' [o [info [[= <-] H]]]]. exists o, info. exact H.
  - split; [discriminate|]. intros [d [o [info [[=] _]]]].
Qed.

(** The answer for a list of outputs is the disjunction of the answers for
    its parts: adding outputs never turns [True] into [False], and swapping
    two parts of the list of outputs does not change the answer. *)
Theorem is_any_tx_output_on_change_branch_app :
  forall (info : option (list (Addr * Info)))
         (outs1 outs2 : list (Z * Addr * Z)),
    is_any_tx_output_on_change_branch addr_eqb change_flag
      {| output_info := info; outputs := outs1 ++ outs2 |}
    = is_any_tx_output_on_change_branch addr_eqb change_flag
        {| output_info := info; outputs := outs1 |}
      || is_any_tx_output_on_change_branch addr_eqb change_flag
           {| output_info := info; outputs := outs2 |}
    /\ is_any_tx_output_on_change_branch addr_eqb change_flag
         {| output_info := info; outputs := outs1 ++ outs2 |}
       = is_any_tx_output_on_change_branch addr_eqb change_flag
           {| output_info := info; outputs := outs2 ++ outs1 |}.
Proof.
  intros info outs1 outs2.
  unfold is_any_tx_output_on_change_branch, no_output_info.
  cbn [output_info outputs].
  destruct info as [[|item d]|]; try (split; reflexivity).
  split; [apply any_output_on_change_branch_app|].
  rewrite !any_output_on_change_branch_app. apply orb_comm.
Qed.

End ChangeBranchProperties.

Lemma is_any_tx_output_on_change_branch_iff_witness :
  is_any_tx_output_on_change_branch String.eqb (fun info : Z * Z => fst info)
    {| output_info := Some [("ecash:recv", (0, 4)); ("ecash:change", (1, 7))];
       outputs := [(0, "ecash:other", 1000); (0, "ecash:change", 546)] |}
  = true.
Proof.
  apply (proj2 (is_any_tx_output_on_change_branch_iff string (Z * Z)%type
                  String.eqb (fun info => fst info)
                  {| output_info :=
                       Some [("ecash:recv", (0, 4)); ("ecash:change", (1, 7))];
                     outputs :=
                       [(0, "ecash:other", 1000); (0, "ecash:change", 546)] |})).
  exists [("ecash:recv", (0, 4)); ("ecash:change", (1, 7))],
         (0, "ecash:change", 546), (1, 7).
  split; [reflexivity|]. split; [right; left; reflexivity|].
  split; reflexivity.
Defined.

Example receiving_outputs_only :
  is_any_tx_output_on_change_branch String.eqb (fun info : Z * Z => fst info)
    {| output_info := Some [("ecash:recv", (0, 4)); ("ecash:change", (1, 7))];
       outputs := [(0, "ecash:other", 1000); (0, "ecash:recv", 546)] |}
  = false.
Proof. reflexivity. Qed.
